(** * Crash-alert client: dashboard and web-app scripts

    A shallow embedding of the two browser scripts of the repository,

      - the operator dashboard  (dashboard_script.js)
      - the end-user web app    (frontend/webapp_script.js)

    and the properties of their push-channel handling, notification area,
    history fetch and location/weather chain.

    Conventions.  The page is a record of the DOM parts the scripts touch.
    Platform services (the WebSocket life cycle, [JSON.parse], [fetch],
    the Capacitor geolocation plugin, the clock) are the environment: their
    results are inputs of the model.  An [async] function is run to
    completion against the outcomes the environment gives at its [await]s;
    each [await] leaves a snapshot of the controls in the page's log, so
    that what the user sees while the call is suspended can be stated. *)

From Stdlib Require Import List String Ascii Bool Arith ZArith Lia.
From Stdlib Require Import DecimalString.
Import ListNotations.
Open Scope string_scope.
Open Scope nat_scope.
Open Scope list_scope.

Set Implicit Arguments.
Set Warnings "-register-all".

(* ================================================================== *)
(** * Strings *)

(** [String.prototype.includes]: [includes needle s] holds when [needle]
    occurs in [s] as a contiguous substring. *)
Fixpoint includes (needle s : string) : bool :=
  if String.prefix needle s then true
  else match s with
       | EmptyString => false
       | String _ rest => includes needle rest
       end.

(** Source text is written with apostrophes where the wire format has double
    quotes; [dq] puts the double quotes back. *)
Definition dq (s : string) : string :=
  string_of_list_ascii
    (map (fun c => if nat_of_ascii c =? 39 then ascii_of_nat 34 else c)
         (list_ascii_of_string s)).

(** Decimal rendering of a natural number, as a template literal prints an
    integer-valued status code. *)
Definition dec (n : nat) : string := NilEmpty.string_of_uint (Nat.to_uint n).

(* ================================================================== *)
(** * JSON values and [JSON.parse] *)

(** A number keeps its lexeme: the scripts never compute with numbers, they
    only test them for truthiness and interpolate them. *)
Inductive JSValue : Type :=
| JNull
| JBool (b : bool)
| JNum (lexeme : string)
| JStr (s : string)
| JArr (elems : list JSValue)
| JObj (members : list (string * JSValue)).

Module Json.

Definition is_ws (c : ascii) : bool :=
  match nat_of_ascii c with
  | 32 | 9 | 10 | 13 => true
  | _ => false
  end.

Fixpoint skip_ws (cs : list ascii) : list ascii :=
  match cs with
  | c :: r => if is_ws c then skip_ws r else cs
  | [] => []
  end.

Definition is_digit (c : ascii) : bool :=
  let n := nat_of_ascii c in (48 <=? n) && (n <=? 57).

Fixpoint take_digits (cs : list ascii) : list ascii * list ascii :=
  match cs with
  | c :: r => if is_digit c
              then let (d, r') := take_digits r in (c :: d, r')
              else ([], cs)
  | [] => ([], [])
  end.

Definition hex_val (c : ascii) : option nat :=
  let n := nat_of_ascii c in
  if (48 <=? n) && (n <=? 57) then Some (n - 48)
  else if (65 <=? n) && (n <=? 70) then Some (n - 55)
  else if (97 <=? n) && (n <=? 102) then Some (n - 87)
  else None.

(** The code unit of a backslash-u escape, stored as UTF-8 bytes. *)
Definition utf8 (cp : nat) : list ascii :=
  if cp <? 128 then [ascii_of_nat cp]
  else if cp <? 2048 then
    [ascii_of_nat (192 + cp / 64); ascii_of_nat (128 + cp mod 64)]
  else
    [ascii_of_nat (224 + cp / 4096);
     ascii_of_nat (128 + (cp / 64) mod 64);
     ascii_of_nat (128 + cp mod 64)].

(** The characters of a string literal after its opening quote. *)
Fixpoint parse_chars (fuel : nat) (cs : list ascii) (acc : list ascii)
  : option (string * list ascii) :=
  match fuel with
  | 0 => None
  | S f =>
    match cs with
    | [] => None
    | c :: r =>
      if nat_of_ascii c =? 34 then Some (string_of_list_ascii (rev acc), r)
      else if nat_of_ascii c =? 92 then
        match r with
        | e :: r' =>
          let simple x := parse_chars f r' (x :: acc) in
          match nat_of_ascii e with
          | 34 => simple e                      (* quote *)
          | 92 => simple e                      (* backslash *)
          | 47 => simple e                      (* slash *)
          | 98 => simple (ascii_of_nat 8)       (* b *)
          | 102 => simple (ascii_of_nat 12)     (* f *)
          | 110 => simple (ascii_of_nat 10)     (* n *)
          | 114 => simple (ascii_of_nat 13)     (* r *)
          | 116 => simple (ascii_of_nat 9)      (* t *)
          | 117 =>                              (* u and four hex digits *)
            match r' with
            | h1 :: h2 :: h3 :: h4 :: r'' =>
              match hex_val h1, hex_val h2, hex_val h3, hex_val h4 with
              | Some a, Some b, Some c', Some d =>
                parse_chars f r''
                  (rev (utf8 (((a * 16 + b) * 16 + c') * 16 + d)) ++ acc)
              | _, _, _, _ => None
              end
            | _ => None
            end
          | _ => None
          end
        | [] => None
        end
      else if nat_of_ascii c <? 32 then None
      else parse_chars f r (c :: acc)
    end
  end.

(** A number lexeme: an optional minus sign; an integer part that is one
    zero or starts with a non-zero digit; an optional fraction (a dot and
    at least one digit); an optional exponent (e or E, an optional sign
    and at least one digit). *)
Definition parse_number (cs : list ascii) : option (string * list ascii) :=
  let (sign, r0) :=
    match cs with
    | c :: r => if Ascii.eqb c "-"%char then ([c], r) else ([], cs)
    | [] => ([], cs)
    end in
  let (int, r1) := take_digits r0 in
  match int with
  | [] => None
  | d :: more =>
    if Ascii.eqb d "0"%char && negb (match more with [] => true | _ => false end)
    then None
    else
      let frac_res :=
        match r1 with
        | c :: r =>
          if Ascii.eqb c "."%char then
            let (fd, r2) := take_digits r in
            match fd with
            | [] => None
            | _ => Some (c :: fd, r2)
            end
          else Some ([], r1)
        | [] => Some ([], r1)
        end in
      match frac_res with
      | None => None
      | Some (frac, r2) =>
        let exp_res :=
          match r2 with
          | c :: r =>
            if Ascii.eqb c "e"%char || Ascii.eqb c "E"%char then
              let (sg, r3) :=
                match r with
                | s :: r' =>
                  if Ascii.eqb s "+"%char || Ascii.eqb s "-"%char
                  then ([s], r') else ([], r)
                | [] => ([], r)
                end in
              let (ed, r4) := take_digits r3 in
              match ed with
              | [] => None
              | _ => Some (c :: sg ++ ed, r4)
              end
            else Some ([], r2)
          | [] => Some ([], r2)
          end in
        match exp_res with
        | None => None
        | Some (ex, r3) =>
          Some (string_of_list_ascii (sign ++ int ++ frac ++ ex), r3)
        end
      end
  end.

Fixpoint strip_prefix (p cs : list ascii) : option (list ascii) :=
  match p, cs with
  | [], _ => Some cs
  | a :: p', c :: cs' => if Ascii.eqb a c then strip_prefix p' cs' else None
  | _ :: _, [] => None
  end.

Definition keyword (w : string) (v : JSValue) (cs : list ascii)
  : option (JSValue * list ascii) :=
  match strip_prefix (list_ascii_of_string w) cs with
  | Some r => Some (v, r)
  | None => None
  end.

(** Recursive descent over the JSON grammar.  [parse_elements] and
    [parse_members] read the rest of an array or object after its first
    item has been announced; members are collected in source order. *)
Fixpoint parse_value (fuel : nat) (cs : list ascii) {struct fuel}
  : option (JSValue * list ascii) :=
  match fuel with
  | 0 => None
  | S f =>
    match skip_ws cs with
    | [] => None
    | c :: r =>
      match nat_of_ascii c with
      | 123 =>                                   (* { *)
        match skip_ws r with
        | c' :: r' =>
          if Ascii.eqb c' "}"%char then Some (JObj [], r')
          else parse_members f (skip_ws r) []
        | [] => None
        end
      | 91 =>                                    (* [ *)
        match skip_ws r with
        | c' :: r' =>
          if Ascii.eqb c' "]"%char then Some (JArr [], r')
          else parse_elements f (skip_ws r) []
        | [] => None
        end
      | 34 =>                                    (* string *)
        match parse_chars (S (List.length r)) r [] with
        | Some (s, r') => Some (JStr s, r')
        | None => None
        end
      | 116 => keyword "true" (JBool true) (c :: r)
      | 102 => keyword "false" (JBool false) (c :: r)
      | 110 => keyword "null" JNull (c :: r)
      | _ =>
        match parse_number (c :: r) with
        | Some (lx, r') => Some (JNum lx, r')
        | None => None
        end
      end
    end
  end

with parse_elements (fuel : nat) (cs : list ascii) (acc : list JSValue)
     {struct fuel} : option (JSValue * list ascii) :=
  match fuel with
  | 0 => None
  | S f =>
    match parse_value f cs with
    | Some (v, r) =>
      match skip_ws r with
      | c :: r' =>
        if Ascii.eqb c ","%char then parse_elements f r' (v :: acc)
        else if Ascii.eqb c "]"%char then Some (JArr (rev (v :: acc)), r')
        else None
      | [] => None
      end
    | None => None
    end
  end

with parse_members (fuel : nat) (cs : list ascii)
                   (acc : list (string * JSValue))
     {struct fuel} : option (JSValue * list ascii) :=
  match fuel with
  | 0 => None
  | S f =>
    match skip_ws cs with
    | q :: r0 =>
      if nat_of_ascii q =? 34 then
        match parse_chars (S (List.length r0)) r0 [] with
        | Some (k, r1) =>
          match skip_ws r1 with
          | c :: r2 =>
            if Ascii.eqb c ":"%char then
              match parse_value f r2 with
              | Some (v, r3) =>
                match skip_ws r3 with
                | d :: r4 =>
                  if Ascii.eqb d ","%char
                  then parse_members f r4 ((k, v) :: acc)
                  else if Ascii.eqb d "}"%char
                  then Some (JObj (rev ((k, v) :: acc)), r4)
                  else None
                | [] => None
                end
              | None => None
              end
            else None
          | [] => None
          end
        | None => None
        end
      else None
    | [] => None
    end
  end.

(** [JSON.parse]: one value, surrounded by optional white space. [None]
    is the [SyntaxError] the platform throws. *)
Definition parse (raw : string) : option JSValue :=
  let cs := list_ascii_of_string raw in
  match parse_value (2 * List.length cs + 2) cs with
  | Some (v, r) => match skip_ws r with [] => Some v | _ => None end
  | None => None
  end.

End Json.

(* ================================================================== *)
(** * JavaScript values as the scripts use them *)

(** An engine-raised error; its message text is the engine's own. *)
Inductive EngineErr : Type :=
| NullProperty (prop : string)     (* reading a property of null/undefined *)
| NotAFunction (prop : string)     (* calling a property that is no function *)
| JsonSyntax                       (* JSON.parse / response.json() failed *)
| Unbound (ident : string).        (* reference to an undeclared name *)

(** A piece of text built by a template literal: literal characters, or a
    value whose conversion to characters is the engine's business and is
    kept symbolic: [${v}], [new Date(v).toLocaleString()],
    [JSON.stringify(v)], the message of an engine-raised error. *)
Inductive Frag : Type :=
| Lit (s : string)
| Val (v : JSValue)
| Locale (v : JSValue)
| Stringify (v : JSValue)
| EngineMsg (e : EngineErr).

Definition Text : Type := list Frag.

(** A sufficient test for [needle] occurring in the text: it occurs inside
    one literal piece. *)
Definition text_includes (needle : string) (t : Text) : bool :=
  existsb (fun f => match f with Lit s => includes needle s | _ => false end) t.

Inductive exn : Type :=
| Error (message : Text)           (* [new Error(message)] of the script *)
| Thrown (e : EngineErr)           (* raised by the engine *)
| Rejected (message : string).     (* rejection reason of a platform promise *)

(** [error.message] *)
Definition message_of (e : exn) : Text :=
  match e with
  | Error m => m
  | Thrown x => [EngineMsg x]
  | Rejected m => [Lit m]
  end.

(** A JavaScript value read from parsed JSON: [None] is [undefined]. *)
Definition JS : Type := option JSValue.

(** Last binding wins: [JSON.parse] overwrites duplicate keys. *)
Fixpoint lookup (k : string) (ms : list (string * JSValue)) : JS :=
  match ms with
  | [] => None
  | (k', v) :: rest =>
    match lookup k rest with
    | Some w => Some w
    | None => if String.eqb k k' then Some v else None
    end
  end.

(** [v.k] for the keys the scripts read on message and history payloads
    (none of them is defined on a built-in prototype). *)
Definition prop (k : string) (v : JSValue) : exn + JS :=
  match v with
  | JNull => inl (Thrown (NullProperty k))
  | JObj ms => inr (lookup k ms)
  | _ => inr None
  end.

(** A number lexeme denotes zero when its mantissa has no non-zero digit
    (magnitudes that underflow to zero are not considered). *)
Fixpoint mantissa_zero (cs : list ascii) : bool :=
  match cs with
  | [] => true
  | c :: r =>
    let n := nat_of_ascii c in
    if (n =? 101) || (n =? 69) then true
    else if (49 <=? n) && (n <=? 57) then false
    else mantissa_zero r
  end.

Definition num_is_zero (lexeme : string) : bool :=
  mantissa_zero (list_ascii_of_string lexeme).

Definition truthy_val (v : JSValue) : bool :=
  match v with
  | JNull => false
  | JBool b => b
  | JNum lx => negb (num_is_zero lx)
  | JStr s => negb (String.eqb s EmptyString)
  | JArr _ => true
  | JObj _ => true
  end.

Definition truthy (v : JS) : bool :=
  match v with
  | None => false
  | Some w => truthy_val w
  end.

(** [v === 'lit'] against a string literal. *)
Definition strict_eq_str (v : JS) (lit : string) : bool :=
  match v with
  | Some (JStr s) => String.eqb s lit
  | _ => false
  end.

(* ================================================================== *)
(** * State and exceptions *)

(** A computation over a mutable state [S] that either completes with a
    value or throws; the state mutated before a throw stays mutated. *)
Definition M (S A : Type) : Type := S -> (exn + A) * S.

Definition ret {S A} (a : A) : M S A := fun s => (inr a, s).

Definition bind {S A B} (c : M S A) (k : A -> M S B) : M S B :=
  fun s => match c s with
           | (inr a, s') => k a s'
           | (inl e, s') => (inl e, s')
           end.

Definition throw {S A} (e : exn) : M S A := fun s => (inl e, s).

Definition modify {S} (f : S -> S) : M S unit := fun s => (inr tt, f s).

Definition gets {S A} (f : S -> A) : M S A := fun s => (inr (f s), s).

Definition lift {S A} (r : exn + A) : M S A := fun s => (r, s).

(** [try { body } catch (e) { handler e }] *)
Definition try_catch {S A} (body : M S A) (handler : exn -> M S A) : M S A :=
  fun s => match body s with
           | (inr a, s') => (inr a, s')
           | (inl e, s') => handler e s'
           end.

(** [try { body } finally { fin }] *)
Definition try_finally {S A} (body : M S A) (fin : M S unit) : M S A :=
  fun s => match body s with
           | (r, s') =>
             match fin s' with
             | (inr _, s'') => (r, s'')
             | (inl e, s'') => (inl e, s'')
             end
           end.

Definition exec {S A} (c : M S A) (s : S) : S := snd (c s).
Definition outcome {S A} (c : M S A) (s : S) : exn + A := fst (c s).

Declare Scope js_scope.
Delimit Scope js_scope with js.
Notation "x <- c ;; k" := (bind c (fun x => k))
  (at level 61, c at next level, right associativity) : js_scope.
Notation "c ;; k" := (bind c (fun _ => k))
  (at level 61, right associativity) : js_scope.
Open Scope js_scope.

(* ================================================================== *)
(** * The notification area *)

(** A child node of the notification area.  Interpolated values are taken
    to bring no [<p>] element of their own into an item. *)
Inductive Node : Type :=
| TextNode (s : string)
| P (text : string)
| Item (cls : string) (error_style : bool) (html : Text).

(** [children] holds elements only; [lastChild] and [removeChild] see every
    node. *)
Definition is_element (n : Node) : bool :=
  match n with
  | TextNode _ => false
  | _ => true
  end.

Definition children_length (div : list Node) : nat :=
  List.length (filter is_element div).

Definition is_p (n : Node) : bool :=
  match n with
  | P _ => true
  | _ => false
  end.

Definition querySelector_p (div : list Node) : option Node := find is_p div.

(** [placeholder && placeholder.textContent.includes('Waiting')] *)
Definition placeholder_waiting (div : list Node) : bool :=
  match querySelector_p div with
  | Some (P t) => includes "Waiting" t
  | _ => false
  end.

(** [while (div.children.length > max) div.removeChild(div.lastChild)].
    Every round removes one node, so [length div] rounds are enough. *)
Fixpoint evict_loop (max fuel : nat) (div : list Node) : list Node :=
  match fuel with
  | 0 => div
  | S f =>
    if max <? children_length div
    then evict_loop max f (removelast div)
    else div
  end.

Definition evict (max : nat) (div : list Node) : list Node :=
  evict_loop max (List.length div) div.

(** The tail of both [addNotification] and [addUserNotification]: drop the
    placeholder when it still says "Waiting", prepend the item, then trim. *)
Definition show (max : nat) (item : Node) (div : list Node) : list Node :=
  let div1 := if placeholder_waiting div then [] else div in
  evict max (item :: div1).

(* ================================================================== *)
(** * The push channel: state shared by both scripts *)

Inductive ReadyState : Type := CONNECTING | OPEN | CLOSED.

Inductive Level : Type := LOG | WARN | ERROR.

Inductive LogArg : Type :=
| ArgStr (s : string)
| ArgNum (n : nat)
| ArgExn (e : exn).

Record LogEntry : Type := { level : Level; label : string; args : list LogArg }.

(** What the WebSocket code of a page reads and writes.  [sockets] lists the
    WebSocket objects created so far, in creation order, with their ready
    state; [ws] is the script's global variable, holding the index of the
    latest one; [timers] holds the due times (ms) of the pending
    [setTimeout(connectWebSocket, ...)] calls; [now] is the clock. *)
Record Chan : Type := {
  notificationsDiv : list Node;
  ws : option nat;
  sockets : list ReadyState;
  timers : list N;
  now : N;
  console : list LogEntry
}.

Definition set_div (d : list Node) (c : Chan) : Chan :=
  {| notificationsDiv := d; ws := ws c; sockets := sockets c;
     timers := timers c; now := now c; console := console c |}.

Definition set_sockets (s : list ReadyState) (c : Chan) : Chan :=
  {| notificationsDiv := notificationsDiv c; ws := ws c; sockets := s;
     timers := timers c; now := now c; console := console c |}.

Definition set_ws (w : option nat) (c : Chan) : Chan :=
  {| notificationsDiv := notificationsDiv c; ws := w; sockets := sockets c;
     timers := timers c; now := now c; console := console c |}.

Definition set_timers (t : list N) (c : Chan) : Chan :=
  {| notificationsDiv := notificationsDiv c; ws := ws c; sockets := sockets c;
     timers := t; now := now c; console := console c |}.

Definition set_now (t : N) (c : Chan) : Chan :=
  {| notificationsDiv := notificationsDiv c; ws := ws c; sockets := sockets c;
     timers := timers c; now := t; console := console c |}.

Definition console_put (l : Level) (lbl : string) (a : list LogArg) (c : Chan)
  : Chan :=
  {| notificationsDiv := notificationsDiv c; ws := ws c; sockets := sockets c;
     timers := timers c; now := now c;
     console := console c ++ [{| level := l; label := lbl; args := a |}] |}.

(** [new WebSocket(url)]: a fresh socket in state CONNECTING. *)
Definition new_WebSocket (c : Chan) : Chan :=
  set_ws (Some (List.length (sockets c))) (set_sockets (sockets c ++ [CONNECTING]) c).

(** [setTimeout(connectWebSocket, delay)] *)
Definition setTimeout_connect (delay : N) (c : Chan) : Chan :=
  set_timers (timers c ++ [(now c + delay)%N]) c.

(** [x ? new Date(x).toLocaleString() : 'N/A'] *)
Definition stamp (v : JS) : Frag :=
  match v with
  | Some w => if truthy_val w then Locale w else Lit "N/A"
  | None => Lit "N/A"
  end.

(** [${x || 'fallback'}] *)
Definition or_else (v : JS) (fallback : string) : Frag :=
  match v with
  | Some w => if truthy_val w then Val w else Lit fallback
  | None => Lit fallback
  end.

(** The object literal both [onerror] handlers hand to the notification
    function; [iso] is [new Date().toISOString()] at that moment. *)
Definition error_record (what iso : string) : JSValue :=
  JObj [("video_filename", JStr what); ("detection_timestamp", JStr iso)].

(* ================================================================== *)
(** * Request/response calls *)

(** What [await fetch(url)] resolves to: the status line and the body, whose
    reading may fail on its own. *)
Record Response : Type := { status : nat; body : exn + string }.

(** [response.ok]: the status is in the range 200-299. *)
Definition ok (r : Response) : bool := (200 <=? status r) && (status r <=? 299).

(** [await response.json()] *)
Definition response_json (r : Response) : exn + JSValue :=
  match body r with
  | inl e => inl e
  | inr b => match Json.parse b with
             | Some v => inr v
             | None => inl (Thrown JsonSyntax)
             end
  end.

(** [v.k] where [v] may be [undefined]. *)
Definition prop_js (k : string) (v : JS) : exn + JS :=
  match v with
  | None => inl (Thrown (NullProperty k))
  | Some w => prop k w
  end.

(** [${v}] where [v] may be [undefined]. *)
Definition interp (v : JS) : Frag :=
  match v with
  | Some w => Val w
  | None => Lit "undefined"
  end.

(** [array.forEach(f)], stopping at the first iteration that throws. *)
Fixpoint forEach {S A} (f : A -> M S unit) (l : list A) : M S unit :=
  match l with
  | [] => ret tt
  | x :: rest => f x ;; forEach f rest
  end.

(** Calling an [async] function without awaiting it.  Its body is run at the
    call (the scripts do nothing after such a call), and an exception in it
    rejects the promise it returns instead of reaching the caller. *)
Definition spawn {S} (callee : M S unit) : M S unit :=
  fun s => (inr tt, snd (callee s)).

(* ------------------------------------------------------------------ *)
(** ** Operator dashboard (dashboard_script.js) *)

Module Dashboard.

Definition maxNotifications : nat := 20.

(** The item built from a record; the line breaks and indentation of the
    template are written as one space. *)
Definition item_of (isError : bool) (video time : Frag) : Node :=
  Item "notification-item" isError
       [Lit "<strong>Crash Alert!</strong><br> Video: "; video;
        Lit "<br> Time: "; time].

Definition addNotification (crashData : JSValue) (isError : bool)
  : M Chan unit :=
  ts <- lift (prop "detection_timestamp" crashData) ;;
  vf <- lift (prop "video_filename" crashData) ;;
  let item := item_of isError (or_else vf "Unknown Video") (stamp ts) in
  modify (fun c => set_div (show maxNotifications item (notificationsDiv c)) c).

Definition onopen : M Chan unit :=
  modify (console_put LOG "WebSocket connection established." []) ;;
  waiting <- gets (fun c => placeholder_waiting (notificationsDiv c)) ;;
  if waiting : bool
  then modify (set_div [P "Connected. Waiting for new crash alerts..."])
  else ret tt.

Definition onmessage (data : string) : M Chan unit :=
  modify (console_put LOG "Message received from server:" [ArgStr data]) ;;
  try_catch
    (message <- lift (match Json.parse data with
                      | Some v => inr v
                      | None => inl (Thrown JsonSyntax)
                      end) ;;
     ty <- lift (prop "type" message) ;;
     if strict_eq_str ty "new_crash" then
       d <- lift (prop "data" message) ;;
       match d with
       | Some crash => if truthy_val crash
                       then addNotification crash false
                       else ret tt
       | None => ret tt
       end
     else ret tt)
    (fun error =>
       modify (console_put ERROR
                 "Failed to parse message or invalid message format:"
                 [ArgExn error])).

Definition onerror (iso : string) : M Chan unit :=
  modify (console_put ERROR "WebSocket Error:" []) ;;
  addNotification (error_record "WebSocket Error" iso) true.

Definition onclose (reason : string) (code : nat) : M Chan unit :=
  modify (console_put LOG "WebSocket connection closed:"
                      [ArgStr reason; ArgNum code]) ;;
  modify (set_div
    [P "WebSocket disconnected. Attempting to reconnect in 5 seconds..."]) ;;
  modify (setTimeout_connect 5000%N).

(** Creates the socket; the four handlers above are the ones it installs
    on it. *)
Definition connectWebSocket : M Chan unit :=
  modify (console_put LOG "Attempting to connect WebSocket..." []) ;;
  modify new_WebSocket.

(* --- History fetching --- *)

Definition API_BASE_URL : string := "http://127.0.0.1:8000".

(** A table cell by its [textContent]: untouched, set to a value, or set
    to [new Date(v).toLocaleString()]. *)
Inductive Cell : Type :=
| Blank
| Shown (v : JS)
| ShownDate (v : JS).

Record HistoryView : Type := {
  historyTbody : list (list Cell);
  historyStatus : Text;
  loadHistoryBtn_disabled : bool
}.

(** The history part of the page: what is on screen, the console, and for
    every [await fetch(url)] the URL with what was on screen while the
    call was pending. *)
Record HistoryPage : Type := {
  view : HistoryView;
  h_console : list LogEntry;
  h_fetches : list (Text * HistoryView)
}.

Definition on_view (f : HistoryView -> HistoryView) (p : HistoryPage)
  : HistoryPage :=
  {| view := f (view p); h_console := h_console p; h_fetches := h_fetches p |}.

Definition set_tbody (t : list (list Cell)) : HistoryPage -> HistoryPage :=
  on_view (fun v => {| historyTbody := t; historyStatus := historyStatus v;
                       loadHistoryBtn_disabled := loadHistoryBtn_disabled v |}).

Definition set_status (t : Text) : HistoryPage -> HistoryPage :=
  on_view (fun v => {| historyTbody := historyTbody v; historyStatus := t;
                       loadHistoryBtn_disabled := loadHistoryBtn_disabled v |}).

Definition set_disabled (b : bool) : HistoryPage -> HistoryPage :=
  on_view (fun v => {| historyTbody := historyTbody v;
                       historyStatus := historyStatus v;
                       loadHistoryBtn_disabled := b |}).

Definition h_log (l : Level) (lbl : string) (a : list LogArg)
           (p : HistoryPage) : HistoryPage :=
  {| view := view p;
     h_console := h_console p ++ [{| level := l; label := lbl; args := a |}];
     h_fetches := h_fetches p |}.

(** [await fetch(url)] against the outcome [net] of the request. *)
Definition await_fetch (url : Text) (net : exn + Response)
  : M HistoryPage Response :=
  fun p => (net, {| view := view p; h_console := h_console p;
                    h_fetches := h_fetches p ++ [(url, view p)] |}).

(** [historyTbody.insertRow()] *)
Definition insertRow (p : HistoryPage) : HistoryPage :=
  set_tbody (historyTbody (view p) ++ [[]]) p.

Definition on_last_row (f : list Cell -> list Cell) (p : HistoryPage)
  : HistoryPage :=
  match rev (historyTbody (view p)) with
  | [] => p
  | r :: before => set_tbody (rev before ++ [f r]) p
  end.

(** [row.insertCell(k)] on the row just inserted, [k] being its length. *)
Definition insertCell : HistoryPage -> HistoryPage :=
  on_last_row (fun r => r ++ [Blank]).

(** [cell.textContent = ...] on the cell just inserted. *)
Definition set_cell (c : Cell) : HistoryPage -> HistoryPage :=
  on_last_row (fun r => removelast r ++ [c]).

(** [historyData.length === 0] *)
Definition length_is_zero (v : JSValue) : exn + bool :=
  match v with
  | JNull => inl (Thrown (NullProperty "length"))
  | JArr l => inr (match l with [] => true | _ => false end)
  | JStr s => inr (String.eqb s EmptyString)
  | JObj ms => inr (match lookup "length" ms with
                    | Some (JNum lx) => num_is_zero lx
                    | _ => false
                    end)
  | _ => inr false
  end.

(** The body of the [forEach] callback. *)
Definition add_row (crash : JSValue) : M HistoryPage unit :=
  modify insertRow ;;
  modify insertCell ;;
  id <- lift (prop "id" crash) ;;
  modify (set_cell (Shown id)) ;;
  modify insertCell ;;
  ts <- lift (prop "detection_timestamp" crash) ;;
  modify (set_cell (ShownDate ts)) ;;
  modify insertCell ;;
  vf <- lift (prop "video_filename" crash) ;;
  modify (set_cell (Shown vf)) ;;
  modify insertCell ;;
  ca <- lift (prop "created_at" crash) ;;
  modify (set_cell (ShownDate ca)).

(** The [try] block of [fetchCrashHistory]. *)
Definition fetchCrashHistory_try (net : exn + Response) : M HistoryPage unit :=
  response <- await_fetch [Lit API_BASE_URL; Lit "/api/crashes/history"] net ;;
  (if negb (ok response)
   then throw (Error [Lit "HTTP error! status: "; Lit (dec (status response))])
   else ret tt) ;;
  historyData <- lift (response_json response) ;;
  empty <- lift (length_is_zero historyData) ;;
  if empty : bool then
    modify (set_status [Lit "No crash history found."])
  else
    modify (set_status []) ;;
    match historyData with
    | JArr rows => forEach add_row rows
    | _ => throw (Thrown (NotAFunction "forEach"))
    end.

Definition fetchCrashHistory (net : exn + Response) : M HistoryPage unit :=
  modify (h_log LOG "Fetching crash history..." []) ;;
  modify (set_status [Lit "Loading history..."]) ;;
  modify (set_tbody []) ;;
  modify (set_disabled true) ;;
  try_finally
    (try_catch
       (fetchCrashHistory_try net)
       (fun error =>
          modify (h_log ERROR "Error fetching crash history:" [ArgExn error]) ;;
          modify (set_status (Lit "Error loading history: " :: message_of error))))
    (modify (set_disabled false)).

End Dashboard.

(* ------------------------------------------------------------------ *)
(** ** End-user web app (frontend/webapp_script.js) *)

Module Webapp.

(** [NGROK_HTTPS_URL] with its scheme replaced by [wss://] and [/ws]
    appended. *)
Definition WEBSOCKET_URL : string := "wss://c813-50-234-34-194.ngrok-free.app/ws".

Definition maxNotifications : nat := 10.

Definition item_of (isError : bool) (video_alert video_issue time : Frag)
  : Node :=
  if isError
  then Item "notification-item-user-error" true
            [Lit "<strong>Connection Issue:</strong> "; video_issue]
  else Item "notification-item-user" false
            [Lit "<strong>Alert:</strong> A crash detected.<br>Time: "; time;
             Lit "<br>Ref: "; video_alert].

Definition addUserNotification (crashData : JSValue) (isError : bool)
  : M Chan unit :=
  ts <- lift (prop "detection_timestamp" crashData) ;;
  vf <- lift (prop "video_filename" crashData) ;;
  let item := item_of isError (or_else vf "N/A") (or_else vf "Unknown")
                      (stamp ts) in
  modify (fun c => set_div (show maxNotifications item (notificationsDiv c)) c).

Definition onopen : M Chan unit :=
  modify (console_put LOG "WebSocket connection established." []) ;;
  waiting <- gets (fun c => placeholder_waiting (notificationsDiv c)) ;;
  if waiting : bool
  then modify (set_div [P "Connected. Waiting for new crash alerts..."])
  else ret tt.

Definition onmessage (data : string) : M Chan unit :=
  modify (console_put LOG "Message received:" [ArgStr data]) ;;
  try_catch
    (message <- lift (match Json.parse data with
                      | Some v => inr v
                      | None => inl (Thrown JsonSyntax)
                      end) ;;
     ty <- lift (prop "type" message) ;;
     if strict_eq_str ty "new_crash" then
       d <- lift (prop "data" message) ;;
       match d with
       | Some crash => if truthy_val crash
                       then addUserNotification crash false
                       else ret tt
       | None => ret tt
       end
     else ret tt)
    (fun error =>
       modify (console_put ERROR "Failed to parse message:" [ArgExn error])).

Definition onerror (iso : string) : M Chan unit :=
  modify (console_put ERROR "WebSocket Error occurred:" []) ;;
  addUserNotification
    (error_record ("WebSocket Conn Error to " ++ WEBSOCKET_URL)%string iso) true.

Definition onclose (reason : string) (code : nat) : M Chan unit :=
  modify (console_put LOG "WebSocket disconnected. Reconnecting..."
                      [ArgNum code; ArgStr reason]) ;;
  modify (set_div [P "WebSocket disconnected. Attempting to reconnect..."]) ;;
  modify (setTimeout_connect 5000%N).

Definition connectWebSocket : M Chan unit :=
  modify (console_put LOG "Attempting WebSocket connection to:"
                      [ArgStr WEBSOCKET_URL]) ;;
  modify new_WebSocket.

(* --- Weather & Speed --- *)

Definition NGROK_HTTPS_URL : string := "https://c813-50-234-34-194.ngrok-free.app".
Definition API_BASE_URL : string := NGROK_HTTPS_URL.

Record WeatherView : Type := {
  weatherInfoDiv : Text;
  locationStatusP : Text;
  refreshWeatherBtn_disabled : bool
}.

(** What the script waits for. *)
Inductive Request : Type :=
| ReqPermissions
| ReqPosition (enableHighAccuracy : bool) (timeout : N)
| ReqFetch (url : Text).

(** The weather part of the page: what is on screen, the console, and for
    every [await] the request with what was on screen while it was
    pending. *)
Record WeatherPage : Type := {
  wview : WeatherView;
  w_console : list LogEntry;
  w_awaits : list (Request * WeatherView)
}.

Definition on_wview (f : WeatherView -> WeatherView) (p : WeatherPage)
  : WeatherPage :=
  {| wview := f (wview p); w_console := w_console p; w_awaits := w_awaits p |}.

Definition set_weatherInfo (t : Text) : WeatherPage -> WeatherPage :=
  on_wview (fun v => {| weatherInfoDiv := t;
                        locationStatusP := locationStatusP v;
                        refreshWeatherBtn_disabled := refreshWeatherBtn_disabled v |}).

Definition set_locationStatus (t : Text) : WeatherPage -> WeatherPage :=
  on_wview (fun v => {| weatherInfoDiv := weatherInfoDiv v;
                        locationStatusP := t;
                        refreshWeatherBtn_disabled := refreshWeatherBtn_disabled v |}).

Definition set_refreshDisabled (b : bool) : WeatherPage -> WeatherPage :=
  on_wview (fun v => {| weatherInfoDiv := weatherInfoDiv v;
                        locationStatusP := locationStatusP v;
                        refreshWeatherBtn_disabled := b |}).

Definition w_log (l : Level) (lbl : string) (a : list LogArg)
           (p : WeatherPage) : WeatherPage :=
  {| wview := wview p;
     w_console := w_console p ++ [{| level := l; label := lbl; args := a |}];
     w_awaits := w_awaits p |}.

(** [await request] against the outcome the environment gives it. *)
Definition await {A} (rq : Request) (result : exn + A) : M WeatherPage A :=
  fun p => (result, {| wview := wview p; w_console := w_console p;
                       w_awaits := w_awaits p ++ [(rq, wview p)] |}).

(** A parameter declared [= null]: [undefined] takes the default. *)
Definition default_null (v : JS) : JSValue :=
  match v with
  | Some w => w
  | None => JNull
  end.

Definition is_null (v : JSValue) : bool :=
  match v with
  | JNull => true
  | _ => false
  end.

(** The [try] block of [fetchWeatherAndSpeed]. *)
Definition fetchWeatherAndSpeed_try (url : Text) (net : exn + Response)
  : M WeatherPage unit :=
  response <- await (ReqFetch url) net ;;
  (if negb (ok response) then
     let errorDetail := [Lit "HTTP error! status: "; Lit (dec (status response))] in
     detail <- try_catch
                 (errorJson <- lift (response_json response) ;;
                  d <- lift (prop "detail" errorJson) ;;
                  ret (errorDetail ++
                       [Lit " - ";
                        if truthy d then interp d else Stringify errorJson]))
                 (fun _ => ret errorDetail) ;;
     throw (Error detail)
   else ret tt) ;;
  data <- lift (response_json response) ;;
  desc <- lift (prop "weather_desc" data) ;;
  vis <- lift (prop "visibility_km" data) ;;
  rain <- lift (prop "is_raining" data) ;;
  speed <- lift (prop "safe_speed_kmh" data) ;;
  modify (set_weatherInfo
    ([Lit "<p><strong>Weather:</strong> "; or_else desc "N/A";
      Lit "</p><p><strong>Visibility:</strong> "] ++
     (match vis with
      | Some JNull => [Lit "N/A"]
      | _ => [interp vis; Lit " km"]
      end) ++
     [Lit "</p><p><strong>Raining:</strong> ";
      Lit (if truthy rain then "Yes" else "No");
      Lit "</p><p><strong>Max Safe Speed:</strong> "; interp speed;
      Lit " km/h</p>"])) ;;
  used <- lift (prop "location_used" data) ;;
  modify (set_locationStatus [Lit "Weather based on: "; interp used]).

Definition fetchWeatherAndSpeed (latitude longitude : JS)
           (net : exn + Response) : M WeatherPage unit :=
  let latitude := default_null latitude in
  let longitude := default_null longitude in
  modify (w_log LOG "Fetching weather from:"
                [ArgStr (API_BASE_URL ++ "/api/weather_conditions")%string]) ;;
  modify (set_weatherInfo [Lit "<p>Fetching weather data...</p>"]) ;;
  modify (set_locationStatus [Lit "Requesting weather..."]) ;;
  modify (set_refreshDisabled true) ;;
  let url := [Lit API_BASE_URL; Lit "/api/weather_conditions"] in
  url <- (if negb (is_null latitude) && negb (is_null longitude)
          then ret (url ++ [Lit "?lat="; Val latitude; Lit "&lon="; Val longitude])
          else modify (set_locationStatus
                         [Lit "Using default location for weather."]) ;;
               ret url) ;;
  try_finally
    (try_catch
       (fetchWeatherAndSpeed_try url net)
       (fun error =>
          modify (w_log ERROR "Error fetching weather data:" [ArgExn error]) ;;
          modify (set_weatherInfo
                    ([Lit (dq "<p style='color: red;'>Could not load weather data: ")] ++
                     message_of error ++ [Lit "</p>"])) ;;
          modify (set_locationStatus [Lit "Failed to get weather."])))
    (modify (set_refreshDisabled false)).

(* --- Location via the Capacitor plugin --- *)

(** How [GeolocationPlugin] is found: under [Capacitor.Plugins], or as the
    imported global [Geolocation], which may hold a falsy value or not be
    declared at all. *)
Inductive PluginLookup : Type :=
| ViaCapacitor
| ViaGlobal
| GlobalFalsy
| GlobalUnbound.

(** The outcomes the environment gives to one run of the chain.  What the
    plugin resolves to is plain data and is written as a JSON value, a
    number by a decimal numeral that denotes it. *)
Record GeoEnv : Type := {
  plugin : PluginLookup;
  permissions : exn + JSValue;   (* requestPermissions() *)
  position : exn + JSValue;      (* getCurrentPosition(options) *)
  weather : exn + Response       (* fetch(url) *)
}.

Definition requestLocationAndFetchWeather (env : GeoEnv) : M WeatherPage unit :=
  modify (w_log LOG "Requesting location via Capacitor plugin..." []) ;;
  modify (set_locationStatus [Lit "Requesting location permission..."]) ;;
  modify (set_refreshDisabled true) ;;
  try_catch
    (match plugin env with
     | GlobalUnbound => throw (Thrown (Unbound "Geolocation"))
     | GlobalFalsy =>
       throw (Error [Lit "Geolocation plugin is not available. Check import/Capacitor setup."])
     | _ => ret tt
     end ;;
     permStatus <- await ReqPermissions (permissions env) ;;
     modify (w_log LOG "Permission status:" []) ;;
     loc <- lift (prop "location" permStatus) ;;
     if strict_eq_str loc "granted" || strict_eq_str loc "prompt-with-rationale"
     then
       modify (set_locationStatus [Lit "Permission granted. Getting position..."]) ;;
       pos <- await (ReqPosition false 10000%N) (position env) ;;
       modify (w_log LOG "Position acquired:" []) ;;
       modify (set_locationStatus [Lit "Location acquired."]) ;;
       coords <- lift (prop "coords" pos) ;;
       lat <- lift (prop_js "latitude" coords) ;;
       coords' <- lift (prop "coords" pos) ;;
       lon <- lift (prop_js "longitude" coords') ;;
       spawn (fetchWeatherAndSpeed lat lon (weather env))
     else
       modify (w_log WARN "Location permission denied by user." []) ;;
       modify (set_locationStatus
                 [Lit "Location permission denied. Using default location."]) ;;
       spawn (fetchWeatherAndSpeed None None (weather env)))
    (fun error =>
       modify (w_log ERROR "Capacitor Geolocation Error:" [ArgExn error]) ;;
       modify (set_locationStatus
                 ([Lit "Could not get location: "] ++ message_of error ++
                  [Lit ". Using default."])) ;;
       spawn (fetchWeatherAndSpeed None None (weather env))).

End Webapp.

(* ================================================================== *)
(** * The event loop seen from the push channel *)

(** The WebSocket code of a page: [connectWebSocket] and the four handlers
    it installs on every socket it creates. *)
Record Script : Type := {
  connect : M Chan unit;
  on_open : M Chan unit;
  on_message : string -> M Chan unit;
  on_error : string -> M Chan unit;
  on_close : string -> nat -> M Chan unit
}.

Definition dashboard : Script :=
  {| connect := Dashboard.connectWebSocket;
     on_open := Dashboard.onopen;
     on_message := Dashboard.onmessage;
     on_error := Dashboard.onerror;
     on_close := Dashboard.onclose |}.

Definition webapp : Script :=
  {| connect := Webapp.connectWebSocket;
     on_open := Webapp.onopen;
     on_message := Webapp.onmessage;
     on_error := Webapp.onerror;
     on_close := Webapp.onclose |}.

(** What the platform can deliver to the page.  Socket events name the
    socket by its index; [EvError] carries the clock reading the handler
    takes; [EvTimeout k] runs the [k]-th pending timer. *)
Inductive Event : Type :=
| EvOpen (i : nat)
| EvMessage (i : nat) (data : string)
| EvError (i : nat) (iso : string)
| EvClose (i : nat) (reason : string) (code : nat)
| EvElapse (ms : N)
| EvTimeout (k : nat).

Fixpoint set_nth {A} (i : nat) (x : A) (l : list A) : list A :=
  match l, i with
  | [], _ => []
  | _ :: r, 0 => x :: r
  | y :: r, S j => y :: set_nth j x r
  end.

Fixpoint remove_nth {A} (k : nat) (l : list A) : list A :=
  match l, k with
  | [], _ => []
  | _ :: r, 0 => r
  | y :: r, S j => y :: remove_nth j r
  end.

Definition set_ready (i : nat) (rs : ReadyState) (c : Chan) : Chan :=
  set_sockets (set_nth i rs (sockets c)) c.

(** One turn of the event loop, [None] when the platform cannot deliver the
    event in this state: a socket opens once, while CONNECTING; delivers
    messages while OPEN; reports errors and closes while not yet CLOSED, and
    closes once; a timer runs when it is due.  An exception that escapes a
    handler ends that handler only. *)
Definition fire (sc : Script) (ev : Event) (c : Chan) : option Chan :=
  match ev with
  | EvOpen i =>
    match nth_error (sockets c) i with
    | Some CONNECTING => Some (exec (on_open sc) (set_ready i OPEN c))
    | _ => None
    end
  | EvMessage i data =>
    match nth_error (sockets c) i with
    | Some OPEN => Some (exec (on_message sc data) c)
    | _ => None
    end
  | EvError i iso =>
    match nth_error (sockets c) i with
    | Some CONNECTING | Some OPEN => Some (exec (on_error sc iso) c)
    | _ => None
    end
  | EvClose i reason code =>
    match nth_error (sockets c) i with
    | Some CONNECTING | Some OPEN =>
      Some (exec (on_close sc reason code) (set_ready i CLOSED c))
    | _ => None
    end
  | EvElapse ms => Some (set_now (now c + ms)%N c)
  | EvTimeout k =>
    match nth_error (timers c) k with
    | Some due =>
      if (due <=? now c)%N
      then Some (exec (connect sc) (set_timers (remove_nth k (timers c)) c))
      else None
    | None => None
    end
  end.

Fixpoint run (sc : Script) (evs : list Event) (c : Chan) : option Chan :=
  match evs with
  | [] => Some c
  | ev :: rest =>
    match fire sc ev c with
    | Some c' => run sc rest c'
    | None => None
    end
  end.

(** The page as served, before any script has run: the markup of the
    notification area and the clock. *)
Definition served (markup : list Node) (t0 : N) : Chan :=
  {| notificationsDiv := markup; ws := None; sockets := []; timers := [];
     now := t0; console := [] |}.

(** [DOMContentLoaded]: the only call of [connectWebSocket] outside a
    timer. *)
Definition load (sc : Script) (markup : list Node) (t0 : N) : Chan :=
  exec (connect sc) (served markup t0).

Definition reachable (sc : Script) (c : Chan) : Prop :=
  exists markup t0 evs, run sc evs (load sc markup t0) = Some c.

Definition is_live (r : ReadyState) : bool :=
  match r with
  | CLOSED => false
  | _ => true
  end.

(** The number of connection attempts that are CONNECTING or OPEN. *)
Definition live (c : Chan) : nat := List.length (filter is_live (sockets c)).

(** An item produced with [isError = true]: the record the handlers make up
    themselves. *)
Definition is_synthetic (n : Node) : bool :=
  match n with
  | Item _ e _ => e
  | _ => false
  end.

Definition is_item (n : Node) : bool :=
  match n with
  | Item _ _ _ => true
  | _ => false
  end.

(** The records pushed into a notification area, oldest first: each is the
    payload with the [isError] flag of the call. *)
Definition pushes (add : JSValue -> bool -> M Chan unit)
           (records : list (JSValue * bool)) (c : Chan) : Chan :=
  fold_left (fun st r => exec (add (fst r) (snd r)) st) records c.

(** A property read off a payload that is known not to be [null]. *)
Definition field (k : string) (v : JSValue) : JS :=
  match prop k v with
  | inr x => x
  | inl _ => None
  end.

(** The item each script shows for a record. *)
Definition dashboard_item (r : JSValue * bool) : Node :=
  Dashboard.item_of (snd r)
    (or_else (field "video_filename" (fst r)) "Unknown Video")
    (stamp (field "detection_timestamp" (fst r))).

Definition webapp_item (r : JSValue * bool) : Node :=
  Webapp.item_of (snd r)
    (or_else (field "video_filename" (fst r)) "N/A")
    (or_else (field "video_filename" (fst r)) "Unknown")
    (stamp (field "detection_timestamp" (fst r))).

(** The longest prefix of a node list with at most [budget] elements: what
    the eviction loop is shown to leave. *)
Fixpoint keep (budget : nat) (div : list Node) : list Node :=
  match div with
  | [] => []
  | x :: rest =>
    if is_element x
    then match budget with
         | 0 => []
         | S b => x :: keep b rest
         end
    else x :: keep budget rest
  end.

(* ================================================================== *)
(** * Properties of the notification area *)

Section Eviction.

Variable max : nat.

Lemma children_length_app (l1 l2 : list Node) :
  children_length (l1 ++ l2) = children_length l1 + children_length l2.
Proof.
  unfold children_length. now rewrite filter_app, length_app.
Qed.

Lemma keep_all (b : nat) (l : list Node) :
  children_length l <= b -> keep b l = l.
Proof.
  revert b. induction l as [|x l IH]; intros b Hb; [reflexivity|].
  unfold children_length in *. simpl in *.
  destruct (is_element x); simpl in *.
  - destruct b as [|b]; [lia|]. f_equal. apply IH. lia.
  - f_equal. now apply IH.
Qed.

Lemma keep_drop_last (b : nat) (l : list Node) (x : Node) :
  b < children_length (l ++ [x]) -> keep b (l ++ [x]) = keep b l.
Proof.
  revert b. induction l as [|y l IH]; intros b Hb.
  - unfold children_length in Hb. simpl in *.
    destruct (is_element x); simpl in *; [|lia].
    destruct b; [reflexivity|lia].
  - unfold children_length in *. simpl in *.
    destruct (is_element y); simpl in *.
    + destruct b as [|b]; [reflexivity|]. f_equal. apply IH. lia.
    + f_equal. now apply IH.
Qed.

Lemma keep_bounded (b : nat) (l : list Node) :
  children_length (keep b l) <= b.
Proof.
  revert b. induction l as [|x l IH]; intros b; simpl.
  - unfold children_length. simpl. lia.
  - destruct (is_element x) eqn:E.
    + destruct b as [|b]; [unfold children_length; simpl; lia|].
      unfold children_length in *. simpl. rewrite E. simpl.
      specialize (IH b). lia.
    + unfold children_length in *. simpl. rewrite E. apply IH.
Qed.

(** The loop ends within [length div] rounds, on the longest prefix that
    fits. *)
Lemma evict_loop_keep (fuel : nat) (l : list Node) :
  List.length l <= fuel -> evict_loop max fuel l = keep max l.
Proof.
  revert l. induction fuel as [|f IH]; intros l Hl.
  - destruct l; [reflexivity|simpl in Hl; lia].
  - simpl. destruct (max <? children_length l) eqn:E.
    + apply Nat.ltb_lt in E.
      destruct (exists_last (l := l)) as [l' [x ->]].
      { intros ->. unfold children_length in E. simpl in E. lia. }
      rewrite removelast_last, keep_drop_last by assumption.
      apply IH. rewrite length_app in Hl. simpl in Hl. lia.
    + apply Nat.ltb_ge in E. symmetry. now apply keep_all.
Qed.

Lemma evict_keep (l : list Node) : evict max l = keep max l.
Proof. unfold evict. now apply evict_loop_keep. Qed.

(** The loop is left with its condition false. *)
Lemma evict_exit (l : list Node) : children_length (evict max l) <= max.
Proof. rewrite evict_keep. apply keep_bounded. Qed.

Lemma keep_prefix (b : nat) (l : list Node) :
  exists n, keep b l = firstn n l.
Proof.
  revert b. induction l as [|x l IH]; intros b.
  - now exists 0.
  - simpl. destruct (is_element x).
    + destruct b as [|b]; [now exists 0|].
      destruct (IH b) as [n ->]. now exists (S n).
    + destruct (IH b) as [n ->]. now exists (S n).
Qed.

Lemma keep_keep (a b : nat) (l : list Node) :
  a <= b -> keep a (keep b l) = keep a l.
Proof.
  revert a b. induction l as [|x l IH]; intros a b Hab; [reflexivity|].
  simpl. destruct (is_element x) eqn:E.
  - destruct b as [|b].
    + assert (a = 0) by lia. now subst.
    + simpl. rewrite E. destruct a as [|a]; [reflexivity|].
      f_equal. apply IH. lia.
  - simpl. rewrite E. f_equal. now apply IH.
Qed.

Lemma keep_app_keep (a b : nat) (l1 l2 : list Node) :
  a <= b -> keep a (l1 ++ keep b l2) = keep a (l1 ++ l2).
Proof.
  revert a. induction l1 as [|x l1 IH]; intros a Hab; simpl.
  - now apply keep_keep.
  - destruct (is_element x).
    + destruct a as [|a]; [reflexivity|]. f_equal. apply IH. lia.
    + f_equal. now apply IH.
Qed.

Lemma keep_full (b : nat) (l1 l2 : list Node) :
  forallb is_element l1 = true -> b < List.length l1 ->
  keep b (l1 ++ l2) = firstn b l1.
Proof.
  revert b. induction l1 as [|x l1 IH]; intros b Hel Hlen; simpl in *.
  - lia.
  - apply andb_true_iff in Hel as [Hx Hel]. rewrite Hx.
    destruct b as [|b]; [reflexivity|]. simpl. f_equal.
    apply IH; [assumption|lia].
Qed.

Lemma find_keep (b : nat) (l : list Node) (x : Node) :
  find is_p (keep b l) = Some x -> find is_p l = Some x.
Proof.
  revert b. induction l as [|y l IH]; intros b; simpl; [discriminate|].
  destruct (is_element y) eqn:E.
  - destruct b as [|b]; simpl; [discriminate|].
    destruct (is_p y); [trivial|apply IH].
  - simpl. destruct (is_p y); [trivial|apply IH].
Qed.

Lemma waiting_keep (b : nat) (l : list Node) :
  placeholder_waiting l = false -> placeholder_waiting (keep b l) = false.
Proof.
  unfold placeholder_waiting, querySelector_p. intros H.
  destruct (find is_p (keep b l)) as [x|] eqn:E; [|reflexivity].
  apply find_keep in E. now rewrite E in H.
Qed.

Lemma show_keep (item : Node) (div : list Node) :
  show max item div =
  keep max (item :: (if placeholder_waiting div then [] else div)).
Proof. unfold show. apply evict_keep. Qed.

Lemma waiting_show (item : Node) (div : list Node) :
  is_item item = true -> placeholder_waiting (show max item div) = false.
Proof.
  intros Hi. rewrite show_keep. apply waiting_keep.
  destruct item; try discriminate.
  destruct (placeholder_waiting div) eqn:E; [reflexivity|exact E].
Qed.

(** Items shown one after the other, oldest first. *)
Definition shown (items : list Node) (div : list Node) : list Node :=
  fold_left (fun d it => show max it d) items div.

Lemma waiting_cons_item (item : Node) (div : list Node) :
  is_item item = true ->
  placeholder_waiting (item :: div) = placeholder_waiting div.
Proof. now destruct item. Qed.

Lemma shown_settled (items : list Node) (div : list Node) :
  forallb is_item items = true ->
  placeholder_waiting div = false ->
  shown items (keep max div) = keep max (rev items ++ div).
Proof.
  revert div. induction items as [|it items IH]; intros div Hit Hw; simpl.
  - reflexivity.
  - apply andb_true_iff in Hit as [Hi Hit].
    rewrite show_keep, (waiting_keep max div Hw).
    change (it :: keep max div) with ([it] ++ keep max div).
    rewrite (keep_app_keep [it] div (Nat.le_refl max)). simpl app.
    rewrite IH; [|assumption|now rewrite waiting_cons_item].
    now rewrite <- app_assoc.
Qed.

Lemma forallb_rev' (f : Node -> bool) (l : list Node) :
  forallb f (rev l) = forallb f l.
Proof.
  induction l as [|x l IH]; [reflexivity|].
  simpl. rewrite forallb_app, IH. simpl. rewrite andb_true_r.
  apply andb_comm.
Qed.

Lemma is_item_element (l : list Node) :
  forallb is_item l = true -> forallb is_element l = true.
Proof.
  induction l as [|x l IH]; simpl; [trivial|].
  intros H. apply andb_true_iff in H as [Hx Hl].
  rewrite IH by assumption. now destruct x.
Qed.

(** More items than the area holds: only the newest [max] remain, newest
    first, whatever the area held before. *)
Lemma shown_overflow (items : list Node) (div : list Node) :
  forallb is_item items = true ->
  max < List.length items ->
  shown items div = firstn max (rev items).
Proof.
  intros Hit Hlen. destruct items as [|it items]; [simpl in Hlen; lia|].
  pose proof (is_item_element (rev (it :: items))) as Hel.
  rewrite forallb_rev' in Hel. specialize (Hel Hit).
  simpl in Hit. apply andb_true_iff in Hit as [Hi Hit].
  change (shown (it :: items) div) with (shown items (show max it div)).
  rewrite show_keep, shown_settled.
  - change (rev items ++ it :: ?d) with (rev items ++ [it] ++ d).
    rewrite app_assoc. apply keep_full; [exact Hel|].
    now rewrite <- length_rev in Hlen.
  - assumption.
  - rewrite waiting_cons_item by assumption.
    now destruct (placeholder_waiting div) eqn:E.
Qed.

End Eviction.

(** A payload that is an actual record: not [null]. *)
Definition not_null (r : JSValue * bool) : Prop := fst r <> JNull.

Lemma dashboard_add (r : JSValue * bool) (c : Chan) :
  not_null r ->
  exec (Dashboard.addNotification (fst r) (snd r)) c =
  set_div (show Dashboard.maxNotifications (dashboard_item r) (notificationsDiv c)) c.
Proof.
  destruct r as [v e]. unfold not_null. simpl. intros Hv.
  destruct v; try congruence; reflexivity.
Qed.

Lemma webapp_add (r : JSValue * bool) (c : Chan) :
  not_null r ->
  exec (Webapp.addUserNotification (fst r) (snd r)) c =
  set_div (show Webapp.maxNotifications (webapp_item r) (notificationsDiv c)) c.
Proof.
  destruct r as [v e]. unfold not_null. simpl. intros Hv.
  destruct v; try congruence; reflexivity.
Qed.

Lemma dashboard_item_is_item (r : JSValue * bool) : is_item (dashboard_item r) = true.
Proof. reflexivity. Qed.

Lemma webapp_item_is_item (r : JSValue * bool) : is_item (webapp_item r) = true.
Proof. unfold webapp_item, Webapp.item_of. now destruct (snd r). Qed.

Section Pushes.

Variable max : nat.
Variable add : JSValue -> bool -> M Chan unit.
Variable item : JSValue * bool -> Node.

Hypothesis add_shows : forall r c,
  not_null r ->
  exec (add (fst r) (snd r)) c = set_div (show max (item r) (notificationsDiv c)) c.
Hypothesis item_is_item : forall r, is_item (item r) = true.

Lemma pushes_shown (records : list (JSValue * bool)) (c : Chan) :
  Forall not_null records ->
  notificationsDiv (pushes add records c) =
  shown max (map item records) (notificationsDiv c).
Proof.
  intros H. revert c. induction H as [|r rs Hr Hrs IH]; intros c.
  - reflexivity.
  - unfold pushes in *. simpl. rewrite IH, add_shows by assumption.
    reflexivity.
Qed.

Lemma pushes_overflow (records : list (JSValue * bool)) (c : Chan) :
  Forall not_null records ->
  max < List.length records ->
  notificationsDiv (pushes add records c) =
  map item (firstn max (rev records)).
Proof.
  intros Hn Hlen. rewrite pushes_shown by assumption.
  rewrite shown_overflow.
  - now rewrite <- map_rev, firstn_map.
  - clear Hn Hlen. induction records as [|r rs IH]; simpl; [reflexivity|].
    now rewrite item_is_item.
  - now rewrite length_map.
Qed.

Lemma children_length_items (rs : list (JSValue * bool)) :
  children_length (map item rs) = List.length rs.
Proof.
  unfold children_length. induction rs as [|r rs IH]; [reflexivity|].
  simpl. pose proof (item_is_item r) as Hi.
  destruct (item r); try discriminate. simpl. now rewrite IH.
Qed.

Lemma push_at_head (r : JSValue * bool) (c : Chan) :
  not_null r ->
  0 < max ->
  exists n,
    notificationsDiv (exec (add (fst r) (snd r)) c) =
    item r :: firstn n (if placeholder_waiting (notificationsDiv c)
                        then [] else notificationsDiv c).
Proof.
  intros Hr Hmax. rewrite add_shows by assumption. simpl.
  rewrite show_keep. simpl.
  pose proof (item_is_item r) as Hi.
  destruct (item r) eqn:E; try discriminate. simpl.
  destruct max as [|m]; [lia|].
  destruct (keep_prefix m (if placeholder_waiting (notificationsDiv c)
                           then [] else notificationsDiv c)) as [n Hn].
  exists n. now rewrite Hn.
Qed.

End Pushes.



(* ================================================================== *)
(** * Properties of the message handler *)

(** The envelope of the specification's example. *)
Definition envelope : string :=
  dq "{'type':'new_crash','data':{'video_filename':'a.mp4','detection_timestamp':'2024-01-01T00:00:00Z'}}".

Definition crash_a : JSValue :=
  JObj [("video_filename", JStr "a.mp4");
        ("detection_timestamp", JStr "2024-01-01T00:00:00Z")].

Lemma parse_envelope :
  Json.parse envelope = Some (JObj [("type", JStr "new_crash"); ("data", crash_a)]).
Proof. vm_compute. reflexivity. Qed.

(** C2.  On the example envelope each script calls its notification function
    once, with the envelope's [data] and [isError = false]; the item put at
    the head of the notification area carries the file name a.mp4. *)
Theorem C2_new_crash_dispatched_once :
  forall c : Chan,
    (exec (Dashboard.onmessage envelope) c =
     exec (Dashboard.addNotification crash_a false)
          (console_put LOG "Message received from server:" [ArgStr envelope] c)
     /\
     notificationsDiv (exec (Dashboard.onmessage envelope) c) =
     show 20
       (Item "notification-item" false
          [Lit "<strong>Crash Alert!</strong><br> Video: "; Val (JStr "a.mp4");
           Lit "<br> Time: "; Locale (JStr "2024-01-01T00:00:00Z")])
       (notificationsDiv c))
    /\
    (exec (Webapp.onmessage envelope) c =
     exec (Webapp.addUserNotification crash_a false)
          (console_put LOG "Message received:" [ArgStr envelope] c)
     /\
     notificationsDiv (exec (Webapp.onmessage envelope) c) =
     show 10
       (Item "notification-item-user" false
          [Lit "<strong>Alert:</strong> A crash detected.<br>Time: ";
           Locale (JStr "2024-01-01T00:00:00Z");
           Lit "<br>Ref: "; Val (JStr "a.mp4")])
       (notificationsDiv c)).
Proof.
  intros c.
  unfold Dashboard.onmessage, Webapp.onmessage, exec, bind, try_catch, lift, modify.
  cbn beta iota. rewrite parse_envelope. repeat split.
Qed.

(** Everything of the channel state the user or the platform can observe;
    the console is left out. *)
Definition ui (c : Chan) : list Node * option nat * list ReadyState * list N * N :=
  (notificationsDiv c, ws c, sockets c, timers c, now c).

Lemma strict_eq_str_true (v : JS) (lit : string) :
  strict_eq_str v lit = true -> v = Some (JStr lit).
Proof.
  destruct v as [[]|]; simpl; try discriminate.
  intros H. apply String.eqb_eq in H. now subst.
Qed.

(** The three ways a message is not a crash notification. *)
Definition not_a_crash (data : string) : Prop :=
  Json.parse data = None
  \/ (exists m, Json.parse data = Some m /\
                prop "type" m <> inr (Some (JStr "new_crash")))
  \/ (exists m, Json.parse data = Some m /\ prop "data" m = inr None).

Ltac run_handler :=
  unfold outcome, exec, Dashboard.onmessage, Webapp.onmessage,
         bind, try_catch, lift, modify, ret, ui;
  cbn beta iota.

(** C3.  A message that is not valid JSON, or whose type is not
    [new_crash], or that has no [data], leaves the page as it was: no item
    is added, nothing but the console changes, and no exception leaves the
    handler. *)
Theorem C3_other_messages_dropped :
  forall (data : string) (c : Chan),
    not_a_crash data ->
    (outcome (Dashboard.onmessage data) c = inr tt /\
     ui (exec (Dashboard.onmessage data) c) = ui c)
    /\
    (outcome (Webapp.onmessage data) c = inr tt /\
     ui (exec (Webapp.onmessage data) c) = ui c).
Proof.
  intros data c [Hbad | [(m & Hm & Hty) | (m & Hm & Hd)]].
  - run_handler. rewrite Hbad. simpl. auto.
  - run_handler. rewrite Hm. simpl.
    destruct (prop "type" m) as [e | ty] eqn:Ety; simpl; [auto|].
    destruct (strict_eq_str ty "new_crash") eqn:Es; simpl; [|auto].
    apply strict_eq_str_true in Es. subst ty. now elim Hty.
  - run_handler. rewrite Hm. simpl.
    destruct (prop "type" m) as [e | ty] eqn:Ety; simpl; [auto|].
    destruct (strict_eq_str ty "new_crash") eqn:Es; simpl; [|auto].
    rewrite Hd. simpl. auto.
Qed.

Lemma C3_other_messages_dropped_witness :
  let c := served [P "Connected. Waiting for new crash alerts..."] 0 in
  notificationsDiv (exec (Dashboard.onmessage (dq "{'type':'other'}")) c) =
    [P "Connected. Waiting for new crash alerts..."] /\
  notificationsDiv (exec (Webapp.onmessage "oops") c) =
    [P "Connected. Waiting for new crash alerts..."] /\
  notificationsDiv (exec (Webapp.onmessage (dq "{'type':'new_crash'}")) c) =
    [P "Connected. Waiting for new crash alerts..."].
Proof.
  intros c. split; [|split].
  - assert (H : not_a_crash (dq "{'type':'other'}")).
    { right. left. exists (JObj [("type", JStr "other")]).
      split; [vm_compute; reflexivity|discriminate]. }
    destruct (C3_other_messages_dropped c H) as [[_ Hd] _].
    exact (f_equal (fun u => fst (fst (fst (fst u)))) Hd).
  - assert (H : not_a_crash "oops").
    { left. vm_compute. reflexivity. }
    destruct (C3_other_messages_dropped c H) as [_ [_ Hw]].
    exact (f_equal (fun u => fst (fst (fst (fst u)))) Hw).
  - assert (H : not_a_crash (dq "{'type':'new_crash'}")).
    { right. right. exists (JObj [("type", JStr "new_crash")]).
      split; vm_compute; reflexivity. }
    destruct (C3_other_messages_dropped c H) as [_ [_ Hw]].
    exact (f_equal (fun u => fst (fst (fst (fst u)))) Hw).
Defined.

(* ================================================================== *)
(** * Reasoning about computations *)

Section Keeps.

Context {S X : Type} (proj : S -> X).

(** A computation that leaves the [proj] part of the state alone. *)
Definition keeps {A} (m : M S A) : Prop := forall s, proj (snd (m s)) = proj s.

Lemma keeps_ret {A} (a : A) : keeps (ret a).
Proof. now intros s. Qed.

Lemma keeps_throw {A} (e : exn) : keeps (@throw S A e).
Proof. now intros s. Qed.

Lemma keeps_lift {A} (r : exn + A) : keeps (lift r).
Proof. now intros s. Qed.

Lemma keeps_modify (f : S -> S) :
  (forall s, proj (f s) = proj s) -> keeps (modify f).
Proof. intros H s. apply H. Qed.

Lemma keeps_bind {A B} (m : M S A) (k : A -> M S B) :
  keeps m -> (forall a, keeps (k a)) -> keeps (bind m k).
Proof.
  intros Hm Hk s. unfold bind. specialize (Hm s).
  destruct (m s) as [[e | a] s']; simpl in *; [assumption|].
  now rewrite Hk.
Qed.

Lemma keeps_try_catch {A} (m : M S A) (h : exn -> M S A) :
  keeps m -> (forall e, keeps (h e)) -> keeps (try_catch m h).
Proof.
  intros Hm Hh s. unfold try_catch. specialize (Hm s).
  destruct (m s) as [[e | a] s']; simpl in *; [|assumption].
  now rewrite Hh.
Qed.

Lemma keeps_forEach {A} (f : A -> M S unit) (l : list A) :
  (forall a, keeps (f a)) -> keeps (forEach f l).
Proof.
  intros Hf. induction l as [|x l IH]; simpl.
  - apply keeps_ret.
  - apply keeps_bind; auto.
Qed.

End Keeps.

(** [try { body } catch { handler } finally { fin }] where the handler and
    [fin] cannot throw: the statement completes normally. *)
Lemma try_catch_finally_completes {S} (body : M S unit) (h : exn -> M S unit)
      (fin : S -> S) (s : S) :
  (forall e s', fst (h e s') = inr tt) ->
  fst (try_finally (try_catch body h) (modify fin) s) = inr tt.
Proof.
  intros Hh. unfold try_finally, try_catch, modify.
  destruct (body s) as [[e | []] s']; simpl; [|reflexivity].
  specialize (Hh e s'). destruct (h e s') as [r s'']. simpl in *. now subst.
Qed.

Lemma try_finally_state {S A} (body : M S A) (fin : S -> S) (s : S) :
  snd (try_finally body (modify fin) s) = fin (snd (body s)).
Proof. unfold try_finally, modify. now destruct (body s). Qed.

Lemma bind_modify {S B} (f : S -> S) (k : unit -> M S B) (s : S) :
  bind (modify f) k s = k tt (f s).
Proof. reflexivity. Qed.

Lemma bind_ret {S A B} (a : A) (k : A -> M S B) (s : S) :
  bind (ret a) k s = k a s.
Proof. reflexivity. Qed.

Lemma bind_modify_ret {S A B} (f : S -> S) (a : A) (k : A -> M S B) (s : S) :
  bind (bind (modify f) (fun _ => ret a)) k s = k a (f s).
Proof. reflexivity. Qed.

(* ================================================================== *)
(** * Properties of the connection life cycle *)

(** The part of the state that decides which connection attempts exist. *)
Definition net (c : Chan) : option nat * list ReadyState * list N * N :=
  (ws c, sockets c, timers c, now c).

(** A computation that leaves sockets, timers and clock alone. *)
Definition frame {A} (m : M Chan A) : Prop := keeps net m.

Lemma frame_set_div (f : Chan -> list Node) :
  keeps net (modify (fun c => set_div (f c) c)).
Proof. now intros c. Qed.

Lemma frame_set_div_const (d : list Node) : keeps net (modify (set_div d)).
Proof. now intros c. Qed.

Lemma frame_console (l : Level) (lbl : string) (a : list LogArg) :
  keeps net (modify (console_put l lbl a)).
Proof. now intros c. Qed.

Lemma frame_gets {A} (f : Chan -> A) : keeps net (gets f).
Proof. now intros c. Qed.

Create HintDb frame.
#[local] Hint Resolve frame_set_div frame_set_div_const frame_console frame_gets
  : frame.

Ltac framed :=
  unfold frame;
  repeat first
    [ apply keeps_ret | apply keeps_throw | apply keeps_lift
    | progress auto with frame
    | apply keeps_bind; [|intros ?]
    | apply keeps_try_catch; [|intros ?]
    | match goal with
      | |- keeps _ (if ?b then _ else _) => destruct b
      | |- keeps _ (match ?x with _ => _ end) => destruct x
      end ].

Lemma frame_addNotification (v : JSValue) (e : bool) :
  keeps net (Dashboard.addNotification v e).
Proof. unfold Dashboard.addNotification. framed. Qed.

Lemma frame_addUserNotification (v : JSValue) (e : bool) :
  keeps net (Webapp.addUserNotification v e).
Proof. unfold Webapp.addUserNotification. framed. Qed.

#[local] Hint Resolve frame_addNotification frame_addUserNotification : frame.

(** What the life-cycle argument needs of a script: only [on_close] arms a
    timer, and it arms one, 5000 ms ahead; only [connect] creates a socket,
    and it creates one. *)
Record disciplined (sc : Script) : Prop := {
  open_frame : frame (on_open sc);
  message_frame : forall data, frame (on_message sc data);
  error_frame : forall iso, frame (on_error sc iso);
  close_arms : forall reason code c,
    net (exec (on_close sc reason code) c) =
    (ws c, sockets c, timers c ++ [(now c + 5000)%N], now c);
  connect_creates : forall c,
    net (exec (connect sc) c) =
    (Some (List.length (sockets c)), sockets c ++ [CONNECTING], timers c, now c)
}.

Lemma dashboard_disciplined : disciplined dashboard.
Proof.
  constructor; simpl.
  - unfold Dashboard.onopen. framed.
  - intros data. unfold Dashboard.onmessage. framed.
  - intros iso. unfold Dashboard.onerror. framed.
  - reflexivity.
  - reflexivity.
Qed.

Lemma webapp_disciplined : disciplined webapp.
Proof.
  constructor; simpl.
  - unfold Webapp.onopen. framed.
  - intros data. unfold Webapp.onmessage. framed.
  - intros iso. unfold Webapp.onerror. framed.
  - reflexivity.
  - reflexivity.
Qed.

(** The life cycle on sockets, timers and clock alone. *)
Definition Net : Type := (option nat * list ReadyState * list N * N)%type.

Definition net_step (ev : Event) (n : Net) : option Net :=
  let '(w, socks, tms, t) := n in
  match ev with
  | EvOpen i =>
    match nth_error socks i with
    | Some CONNECTING => Some (w, set_nth i OPEN socks, tms, t)
    | _ => None
    end
  | EvMessage i _ =>
    match nth_error socks i with
    | Some OPEN => Some n
    | _ => None
    end
  | EvError i _ =>
    match nth_error socks i with
    | Some CONNECTING | Some OPEN => Some n
    | _ => None
    end
  | EvClose i _ _ =>
    match nth_error socks i with
    | Some CONNECTING | Some OPEN =>
      Some (w, set_nth i CLOSED socks, tms ++ [(t + 5000)%N], t)
    | _ => None
    end
  | EvElapse ms => Some (w, socks, tms, (t + ms)%N)
  | EvTimeout k =>
    match nth_error tms k with
    | Some due =>
      if (due <=? t)%N
      then Some (Some (List.length socks), socks ++ [CONNECTING], remove_nth k tms, t)
      else None
    | None => None
    end
  end.

Fixpoint net_run (evs : list Event) (n : Net) : option Net :=
  match evs with
  | [] => Some n
  | ev :: rest =>
    match net_step ev n with
    | Some n' => net_run rest n'
    | None => None
    end
  end.

Section Discipline.

Variable sc : Script.
Hypothesis Hsc : disciplined sc.

Lemma fire_net (ev : Event) (c : Chan) :
  option_map net (fire sc ev c) = net_step ev (net c).
Proof.
  destruct Hsc as [Ho Hm He Hc Hn].
  destruct ev as [i | i data | i iso | i reason code | ms | k]; simpl.
  - destruct (nth_error (sockets c) i) as [[]|]; simpl; trivial.
    unfold exec. now rewrite Ho.
  - destruct (nth_error (sockets c) i) as [[]|]; simpl; trivial.
    unfold exec. now rewrite Hm.
  - destruct (nth_error (sockets c) i) as [[]|]; simpl; trivial;
      unfold exec; now rewrite He.
  - destruct (nth_error (sockets c) i) as [[]|]; simpl; trivial;
      now rewrite Hc.
  - reflexivity.
  - destruct (nth_error (timers c) k) as [due|]; simpl; trivial.
    destruct (due <=? now c)%N; simpl; trivial. now rewrite Hn.
Qed.

Lemma run_net (evs : list Event) (c : Chan) :
  option_map net (run sc evs c) = net_run evs (net c).
Proof.
  revert c. induction evs as [|ev evs IH]; intros c; simpl; [reflexivity|].
  pose proof (fire_net ev c) as H.
  destruct (fire sc ev c) as [c'|]; simpl in H; rewrite <- H; [apply IH|reflexivity].
Qed.

Lemma load_net (markup : list Node) (t0 : N) :
  net (load sc markup t0) = (Some 0, [CONNECTING], [], t0).
Proof. unfold load. now rewrite (connect_creates Hsc). Qed.

End Discipline.

(** The number of live sockets of a socket list. *)
Definition live_of (socks : list ReadyState) : nat :=
  List.length (filter is_live socks).

Lemma live_of_app (l1 l2 : list ReadyState) :
  live_of (l1 ++ l2) = live_of l1 + live_of l2.
Proof. unfold live_of. now rewrite filter_app, length_app. Qed.

Lemma live_set_nth (i : nat) (socks : list ReadyState) (old new : ReadyState) :
  nth_error socks i = Some old ->
  live_of (set_nth i new socks) + (if is_live old then 1 else 0) =
  live_of socks + (if is_live new then 1 else 0).
Proof.
  revert i. induction socks as [|s socks IH]; intros i H.
  - destruct i; discriminate.
  - destruct i as [|i]; simpl in *.
    + injection H as ->. unfold live_of. simpl.
      destruct (is_live old), (is_live new); simpl; lia.
    + specialize (IH i H). unfold live_of in *. simpl.
      destruct (is_live s); simpl; lia.
Qed.

Lemma length_remove_nth {A} (k : nat) (l : list A) (x : A) :
  nth_error l k = Some x -> S (List.length (remove_nth k l)) = List.length l.
Proof.
  revert k. induction l as [|y l IH]; intros k H.
  - destruct k; discriminate.
  - destruct k as [|k]; simpl in *; [reflexivity|]. f_equal. now apply IH.
Qed.

(** One outstanding attempt: a live socket or a pending reconnect timer,
    never both, never two. *)
Definition one_attempt (n : Net) : Prop :=
  let '(_, socks, tms, _) := n in live_of socks + List.length tms = 1.

Lemma net_step_one_attempt (ev : Event) (n n' : Net) :
  one_attempt n -> net_step ev n = Some n' -> one_attempt n'.
Proof.
  destruct n as [[[w socks] tms] t]. unfold one_attempt.
  intros Inv H. destruct ev as [i | i data | i iso | i reason code | ms | k];
    simpl in H.
  - destruct (nth_error socks i) as [[]|] eqn:E; try discriminate.
    injection H as <-. pose proof (live_set_nth i socks OPEN E). simpl in *. lia.
  - destruct (nth_error socks i) as [[]|]; try discriminate. now injection H as <-.
  - destruct (nth_error socks i) as [[]|]; try discriminate; now injection H as <-.
  - destruct (nth_error socks i) as [[]|] eqn:E; try discriminate;
      injection H as <-; pose proof (live_set_nth i socks CLOSED E);
      rewrite length_app; simpl in *; lia.
  - now injection H as <-.
  - destruct (nth_error tms k) as [due|] eqn:E; try discriminate.
    destruct (due <=? t)%N; try discriminate. injection H as <-.
    pose proof (length_remove_nth k tms E).
    rewrite live_of_app. unfold live_of at 2. simpl. lia.
Qed.

Lemma net_run_one_attempt (evs : list Event) (n n' : Net) :
  one_attempt n -> net_run evs n = Some n' -> one_attempt n'.
Proof.
  revert n. induction evs as [|ev evs IH]; intros n Inv H; simpl in H.
  - now injection H as <-.
  - destruct (net_step ev n) as [n1|] eqn:E; [|discriminate].
    eapply IH; [|eassumption]. eapply net_step_one_attempt; eassumption.
Qed.

Lemma reachable_one_attempt (sc : Script) (c : Chan) :
  disciplined sc -> reachable sc c -> one_attempt (net c).
Proof.
  intros Hsc (markup & t0 & evs & Hrun).
  pose proof (run_net Hsc evs (load sc markup t0)) as H.
  rewrite Hrun, load_net in H by assumption. simpl in H.
  symmetry in H. eapply net_run_one_attempt; [|exact H].
  reflexivity.
Qed.

Lemma new_socket_only_by_timer (ev : Event) (n n' : Net) :
  net_step ev n = Some n' ->
  List.length (snd (fst (fst n))) < List.length (snd (fst (fst n'))) ->
  exists k, ev = EvTimeout k /\ 0 < List.length (snd (fst n)).
Proof.
  destruct n as [[[w socks] tms] t]. simpl.
  assert (Hlen : forall i x, List.length (set_nth i x socks) = List.length socks).
  { intros i x. revert i. induction socks as [|s l IH]; intros [|i]; simpl; auto. }
  destruct ev as [i | i data | i iso | i reason code | ms | k]; simpl; intros H Hl.
  - destruct (nth_error socks i) as [[]|]; try discriminate.
    injection H as <-. simpl in Hl. rewrite Hlen in Hl. lia.
  - destruct (nth_error socks i) as [[]|]; try discriminate.
    injection H as <-. simpl in Hl. lia.
  - destruct (nth_error socks i) as [[]|]; try discriminate;
      injection H as <-; simpl in Hl; lia.
  - destruct (nth_error socks i) as [[]|]; try discriminate;
      injection H as <-; simpl in Hl; rewrite Hlen in Hl; lia.
  - injection H as <-. simpl in Hl. lia.
  - exists k. split; [reflexivity|].
    destruct (nth_error tms k) as [due|] eqn:E; [|discriminate].
    destruct tms; [destruct k; discriminate|simpl; lia].
Qed.

(** One loss/retry cycle on socket [i]: it closes, [ms] pass, the timer
    runs. *)
Definition cycle_after (ms : N) (i : nat) : list Event :=
  [EvClose i EmptyString 1006; EvElapse ms; EvTimeout 0].

Definition cycle : nat -> list Event := cycle_after 5000.

(** [count] consecutive cycles, the first on socket [from]. *)
Definition cycles_from (from count : nat) : list Event :=
  flat_map cycle (seq from count).

Definition cycles : nat -> list Event := cycles_from 0.

Lemma nth_error_closed_then (i : nat) (s : ReadyState) :
  nth_error (repeat CLOSED i ++ [s]) i = Some s.
Proof.
  rewrite nth_error_app2 by (rewrite repeat_length; lia).
  rewrite repeat_length, Nat.sub_diag. reflexivity.
Qed.

Lemma set_nth_closed_then (i : nat) (s s' : ReadyState) :
  set_nth i s' (repeat CLOSED i ++ [s]) = repeat CLOSED i ++ [s'].
Proof. induction i as [|i IH]; simpl; [reflexivity|now rewrite IH]. Qed.

Lemma net_cycle (w : option nat) (i : nat) (t : N) :
  net_run (cycle i) (w, repeat CLOSED i ++ [CONNECTING], [], t) =
  Some (Some (S i), repeat CLOSED (S i) ++ [CONNECTING], [], (t + 5000)%N).
Proof.
  unfold cycle, cycle_after, net_run, net_step.
  rewrite nth_error_closed_then, set_nth_closed_then. simpl.
  rewrite N.leb_refl. simpl.
  rewrite length_app, repeat_length. simpl.
  replace (i + 1) with (S i) by lia.
  rewrite <- repeat_cons. reflexivity.
Qed.

Lemma net_run_app (a b : list Event) (n : Net) :
  net_run (a ++ b) n =
  match net_run a n with
  | Some n' => net_run b n'
  | None => None
  end.
Proof.
  revert n. induction a as [|ev a IH]; intros n; simpl; [reflexivity|].
  destruct (net_step ev n); [apply IH|reflexivity].
Qed.

Lemma net_cycles (count : nat) :
  forall (w : option nat) (from : nat) (t : N),
    exists w',
      net_run (cycles_from from count) (w, repeat CLOSED from ++ [CONNECTING], [], t) =
      Some (w', repeat CLOSED (from + count) ++ [CONNECTING], [],
            (t + 5000 * N.of_nat count)%N).
Proof.
  induction count as [|count IH]; intros w from t.
  - exists w. simpl. now rewrite Nat.add_0_r, N.add_0_r.
  - unfold cycles_from in *. cbn [seq].
    change (flat_map cycle (from :: seq (S from) count))
      with (cycle from ++ flat_map cycle (seq (S from) count)).
    rewrite net_run_app, net_cycle.
    destruct (IH (Some (S from)) (S from) (t + 5000)%N) as [w' Hw].
    exists w'. rewrite Hw.
    replace (S from + count) with (from + S count) by lia.
    replace (t + 5000 + 5000 * N.of_nat count)%N
      with (t + 5000 * N.of_nat (S count))%N by lia.
    reflexivity.
Qed.

Lemma net_too_early (w : option nat) (i : nat) (t ms : N) :
  (ms < 5000)%N ->
  net_run (cycle_after ms i) (w, repeat CLOSED i ++ [CONNECTING], [], t) = None.
Proof.
  intros Hms. unfold cycle_after, net_run, net_step.
  rewrite nth_error_closed_then. simpl.
  destruct (t + 5000 <=? t + ms)%N eqn:E; [|reflexivity].
  apply N.leb_le in E. lia.
Qed.



(** C6.  In every state the page can reach from its load, at most one
    connection attempt is CONNECTING or OPEN, and a step that starts a new
    attempt is taken only when none is. *)
Theorem C6_one_attempt_at_a_time :
  forall (sc : Script) (c : Chan),
    sc = dashboard \/ sc = webapp ->
    reachable sc c ->
    live c <= 1 /\
    (forall ev c',
        fire sc ev c = Some c' ->
        List.length (sockets c) < List.length (sockets c') ->
        live c = 0).
Proof.
  intros sc c Hsc Hr.
  assert (Hd : disciplined sc).
  { destruct Hsc as [-> | ->];
      [apply dashboard_disciplined | apply webapp_disciplined]. }
  pose proof (reachable_one_attempt Hd Hr) as Inv.
  unfold one_attempt, net in Inv. fold (live c) in Inv.
  change (live_of (sockets c)) with (live c) in Inv.
  split; [lia|].
  intros ev c' Hf Hlen.
  pose proof (fire_net Hd ev c) as H. rewrite Hf in H.
  cbn [option_map] in H. symmetry in H.
  destruct (new_socket_only_by_timer ev (net c) H) as (k & _ & Ht); [exact Hlen|].
  unfold net in Ht. simpl in Ht. lia.
Qed.

Lemma C6_one_attempt_at_a_time_witness :
  let start := load dashboard [P "Waiting for alerts..."] 0 in
  let c := match run dashboard [EvOpen 0; EvError 0 "T"; EvClose 0 EmptyString 1006;
                                EvElapse 6000]
                     start with
           | Some c => c
           | None => start
           end in
  live c <= 1 /\
  (forall c', fire dashboard (EvTimeout 0) c = Some c' ->
              List.length (sockets c) < List.length (sockets c') -> live c = 0).
Proof.
  intros start c.
  assert (Hr : reachable dashboard c).
  { exists [P "Waiting for alerts..."], 0%N,
      [EvOpen 0; EvError 0 "T"; EvClose 0 EmptyString 1006; EvElapse 6000].
    reflexivity. }
  destruct (C6_one_attempt_at_a_time (or_introl eq_refl) Hr) as [Hl Hs].
  split; [exact Hl|]. intros c'. apply Hs.
Defined.

(** The status paragraph currently in the notification area, if any. *)
Definition status_text (c : Chan) : option Node := querySelector_p (notificationsDiv c).

Definition synthetic_items (c : Chan) : list Node :=
  filter is_synthetic (notificationsDiv c).



(* ================================================================== *)
(** * Properties of the history fetch *)

Import Dashboard.

Create HintDb history.

Lemma h_fetches_on_view (f : HistoryView -> HistoryView) (p : HistoryPage) :
  h_fetches (on_view f p) = h_fetches p.
Proof. reflexivity. Qed.

Lemma h_fetches_on_last_row (f : list Cell -> list Cell) (p : HistoryPage) :
  h_fetches (on_last_row f p) = h_fetches p.
Proof. unfold on_last_row. now destruct (rev (historyTbody (view p))). Qed.

Lemma add_row_keeps_fetches (crash : JSValue) : keeps h_fetches (add_row crash).
Proof.
  unfold add_row.
  repeat first
    [ apply keeps_bind; [|intros ?]
    | apply keeps_lift
    | apply keeps_modify; intros ?;
      first [ reflexivity | apply h_fetches_on_last_row ] ].
Qed.

(** Apart from the request it issues first, the [try] block records no
    further request. *)
Lemma try_records_one_fetch (net : exn + Response) (p : HistoryPage) :
  h_fetches (exec (fetchCrashHistory_try net) p) =
  h_fetches p ++ [([Lit Dashboard.API_BASE_URL; Lit "/api/crashes/history"], view p)].
Proof.
  unfold exec, fetchCrashHistory_try.
  set (k := fun response : Response => _).
  unfold bind at 1, await_fetch.
  destruct net as [e | r]; [reflexivity|].
  assert (Hk : keeps h_fetches (k r)).
  { subst k. cbv beta.
    apply keeps_bind; [destruct (negb (ok r)); [apply keeps_throw|apply keeps_ret]|].
    intros _. apply keeps_bind; [apply keeps_lift|]. intros historyData.
    apply keeps_bind; [apply keeps_lift|]. intros [|].
    - apply keeps_modify. reflexivity.
    - apply keeps_bind; [apply keeps_modify; reflexivity|]. intros _.
      destruct historyData; try apply keeps_throw.
      apply keeps_forEach. apply add_row_keeps_fetches. }
  now rewrite Hk.
Qed.

Definition is_record (v : JSValue) : bool :=
  match v with
  | JNull => false
  | _ => true
  end.

Lemma add_row_outcome (crash : JSValue) (p : HistoryPage) :
  outcome (add_row crash) p =
  if is_record crash then inr tt else inl (Thrown (NullProperty "id")).
Proof. destruct crash; reflexivity. Qed.

Lemma forEach_add_row_outcome (rows : list JSValue) (p : HistoryPage) :
  (exists e, outcome (forEach add_row rows) p = inl e) <->
  forallb is_record rows = false.
Proof.
  revert p. induction rows as [|crash rows IH]; intros p; simpl.
  - split; [intros [e H]; discriminate|discriminate].
  - unfold outcome, bind in *. pose proof (add_row_outcome crash p) as Ho.
    unfold outcome in Ho.
    destruct (add_row crash p) as [[e | []] p']; simpl in Ho.
    + destruct (is_record crash); [discriminate|].
      simpl. split; [reflexivity|]. intros _. now exists e.
    + destruct (is_record crash); [|discriminate]. simpl. apply IH.
Qed.

(** A decoded body the script renders without an exception: something whose
    [length] is 0, or an array without [null] entries. *)
Definition accepted (v : JSValue) : bool :=
  match length_is_zero v with
  | inl _ => false
  | inr true => true
  | inr false =>
    match v with
    | JArr rows => forallb is_record rows
    | _ => false
    end
  end.

(** The outcomes of the request on which the [try] block throws. *)
Definition refused (net : exn + Response) : bool :=
  match net with
  | inl _ => true
  | inr r =>
    negb (ok r) ||
    match response_json r with
    | inl _ => true
    | inr v => negb (accepted v)
    end
  end.

Lemma try_throws_iff_refused (net : exn + Response) (p : HistoryPage) :
  (exists e, outcome (fetchCrashHistory_try net) p = inl e) <-> refused net = true.
Proof.
  unfold outcome, fetchCrashHistory_try, refused.
  unfold bind at 1, await_fetch.
  destruct net as [e | r]; simpl.
  - split; [reflexivity|]. intros _. now exists e.
  - unfold bind at 1. destruct (ok r); simpl.
    + unfold ret, bind at 1, lift.
      destruct (response_json r) as [e | v]; simpl.
      * split; [reflexivity|]. intros _. now exists e.
      * unfold accepted, bind at 1.
        destruct (length_is_zero v) as [e | [|]] eqn:El; simpl.
        -- split; [reflexivity|]. intros _. now exists e.
        -- split; [intros [e H]; discriminate|discriminate].
        -- rewrite bind_modify.
           destruct v; simpl;
             try (split; [reflexivity|]; intros _; eexists; reflexivity).
           rewrite negb_true_iff. apply forEach_add_row_outcome.
    + split; [reflexivity|]. intros _. eexists. reflexivity.
Qed.

Lemma prefix_refl (s : string) : String.prefix s s = true.
Proof.
  induction s as [|a s IH]; [reflexivity|].
  simpl. now destruct (ascii_dec a a).
Qed.

Lemma includes_refl (s : string) : includes s s = true.
Proof. destruct s; [reflexivity|]. cbn [includes]. now rewrite prefix_refl. Qed.

(** A history page with nothing on it. *)
Definition blank_history : HistoryPage :=
  {| view := {| historyTbody := []; historyStatus := [];
                loadHistoryBtn_disabled := false |};
     h_console := []; h_fetches := [] |}.




(** The outcomes on which nothing can be rendered: no response, a status
    outside 200-299, or a body that does not decode. *)
Definition request_failed (net : exn + Response) : bool :=
  match net with
  | inl _ => true
  | inr r =>
    negb (ok r) ||
    match response_json r with
    | inl _ => true
    | inr _ => false
    end
  end.

(** What is on screen while the history request is pending. *)
Definition history_pending : HistoryView :=
  {| historyTbody := []; historyStatus := [Lit "Loading history..."];
     loadHistoryBtn_disabled := true |}.

Lemma fetchCrashHistory_pending (net : exn + Response) (p : HistoryPage) :
  h_fetches (exec (fetchCrashHistory net) p) =
  h_fetches p ++
  [([Lit Dashboard.API_BASE_URL; Lit "/api/crashes/history"], history_pending)].
Proof.
  unfold exec, fetchCrashHistory. rewrite !bind_modify.
  rewrite try_finally_state. unfold set_disabled at 1.
  rewrite h_fetches_on_view. unfold try_catch.
  pose proof (try_records_one_fetch net
                (set_disabled true (set_tbody [] (set_status [Lit "Loading history..."]
                   (h_log LOG "Fetching crash history..." [] p))))) as H.
  unfold exec in H.
  destruct (fetchCrashHistory_try net _) as [[e | []] p']; simpl in *; exact H.
Qed.

Lemma fetchCrashHistory_completes (net : exn + Response) (p : HistoryPage) :
  outcome (fetchCrashHistory net) p = inr tt /\
  loadHistoryBtn_disabled (view (exec (fetchCrashHistory net) p)) = false.
Proof.
  unfold outcome, exec, fetchCrashHistory. rewrite !bind_modify. split.
  - now apply try_catch_finally_completes.
  - now rewrite try_finally_state.
Qed.

(** C10.  The table body is emptied before the request is issued: while the
    request is pending the page shows no row.  Hence after a failed fetch
    the table is empty, whatever it showed before, and in every case what it
    shows afterwards owes nothing to what it showed before. *)
Theorem C10_history_cleared_before_fetch :
  forall (net : exn + Response) (p : HistoryPage),
    h_fetches (exec (fetchCrashHistory net) p) =
      h_fetches p ++
      [([Lit Dashboard.API_BASE_URL; Lit "/api/crashes/history"],
        {| historyTbody := []; historyStatus := [Lit "Loading history..."];
           loadHistoryBtn_disabled := true |})]
    /\
    (request_failed net = true ->
     historyTbody (view (exec (fetchCrashHistory net) p)) = [])
    /\
    historyTbody (view (exec (fetchCrashHistory net) p)) =
    historyTbody (view (exec (fetchCrashHistory net) (set_tbody [] p))).
Proof.
  intros net p. split; [|split].
  - apply fetchCrashHistory_pending.
  - intros Hf. unfold exec, fetchCrashHistory. rewrite !bind_modify.
    rewrite try_finally_state. unfold try_catch, fetchCrashHistory_try.
    unfold bind at 1, await_fetch.
    destruct net as [e | r]; [reflexivity|]. simpl in Hf.
    unfold bind at 1. destruct (ok r); simpl in *; [|reflexivity].
    unfold bind at 1, lift.
    destruct (response_json r) as [e | v]; [reflexivity|discriminate].
  - reflexivity.
Qed.

Lemma C10_history_cleared_before_fetch_witness :
  let shown_before :=
    set_tbody [[Shown (Some (JNum "1")); ShownDate None; Shown None; ShownDate None]]
              blank_history in
  historyTbody
    (view (exec (fetchCrashHistory (inl (Rejected "Failed to fetch"))) shown_before))
  = [].
Proof.
  intros shown_before.
  destruct (C10_history_cleared_before_fetch
              (inl (Rejected "Failed to fetch")) shown_before) as (_ & H & _).
  apply H. reflexivity.
Defined.

(* ================================================================== *)
(** * Properties of the location and weather chain *)

Import Webapp.

Definition is_fetch (rq : Request) : bool :=
  match rq with
  | ReqFetch _ => true
  | _ => false
  end.

(** The URL [fetchWeatherAndSpeed] builds for its arguments. *)
Definition weather_url (latitude longitude : JS) : Text :=
  if negb (is_null (default_null latitude)) && negb (is_null (default_null longitude))
  then [Lit Webapp.API_BASE_URL; Lit "/api/weather_conditions"; Lit "?lat=";
        Val (default_null latitude); Lit "&lon="; Val (default_null longitude)]
  else [Lit Webapp.API_BASE_URL; Lit "/api/weather_conditions"].

(** What is on screen while the weather request is pending. *)
Definition weather_pending (latitude longitude : JS) : WeatherView :=
  {| weatherInfoDiv := [Lit "<p>Fetching weather data...</p>"];
     locationStatusP :=
       if negb (is_null (default_null latitude)) && negb (is_null (default_null longitude))
       then [Lit "Requesting weather..."]
       else [Lit "Using default location for weather."];
     refreshWeatherBtn_disabled := true |}.

Lemma w_awaits_on_wview (f : WeatherView -> WeatherView) (p : WeatherPage) :
  w_awaits (on_wview f p) = w_awaits p.
Proof. reflexivity. Qed.

Ltac keeps_awaits :=
  repeat first
    [ apply keeps_ret | apply keeps_throw | apply keeps_lift
    | apply keeps_modify; intros ?; reflexivity
    | apply keeps_bind; [|intros ?]
    | apply keeps_try_catch; [|intros ?]
    | match goal with
      | |- keeps _ (if ?b then _ else _) => destruct b
      end ].

Lemma weather_try_records_one_fetch (url : Text) (net : exn + Response)
      (p : WeatherPage) :
  w_awaits (exec (fetchWeatherAndSpeed_try url net) p) =
  w_awaits p ++ [(ReqFetch url, wview p)].
Proof.
  unfold exec, fetchWeatherAndSpeed_try.
  set (k := fun response : Response => _).
  unfold bind at 1, await.
  destruct net as [e | r]; [reflexivity|].
  assert (Hk : keeps w_awaits (k r)).
  { subst k. cbv beta. keeps_awaits. }
  now rewrite Hk.
Qed.

(** One call of [fetchWeatherAndSpeed]: it completes, issues exactly the one
    request, with the button disabled while the request is pending, and
    leaves the button enabled. *)
Lemma fetchWeatherAndSpeed_spec (latitude longitude : JS) (net : exn + Response)
      (p : WeatherPage) :
  outcome (fetchWeatherAndSpeed latitude longitude net) p = inr tt /\
  refreshWeatherBtn_disabled
    (wview (exec (fetchWeatherAndSpeed latitude longitude net) p)) = false /\
  w_awaits (exec (fetchWeatherAndSpeed latitude longitude net) p) =
  w_awaits p ++ [(ReqFetch (weather_url latitude longitude),
                  weather_pending latitude longitude)].
Proof.
  unfold outcome, exec, fetchWeatherAndSpeed, weather_url, weather_pending.
  rewrite !bind_modify.
  destruct (negb (is_null (default_null latitude)) &&
            negb (is_null (default_null longitude))).
  - rewrite bind_ret. split; [|split].
    + now apply try_catch_finally_completes.
    + now rewrite try_finally_state.
    + rewrite try_finally_state. unfold set_refreshDisabled at 1.
      rewrite w_awaits_on_wview. unfold try_catch.
      match goal with
      | |- context [fetchWeatherAndSpeed_try ?u net ?q] =>
        pose proof (weather_try_records_one_fetch u net q) as H;
        unfold exec in H;
        destruct (fetchWeatherAndSpeed_try u net q) as [[e | []] p']
      end; simpl in *; exact H.
  - rewrite bind_modify_ret. split; [|split].
    + now apply try_catch_finally_completes.
    + now rewrite try_finally_state.
    + rewrite try_finally_state. unfold set_refreshDisabled at 1.
      rewrite w_awaits_on_wview. unfold try_catch.
      match goal with
      | |- context [fetchWeatherAndSpeed_try ?u net ?q] =>
        pose proof (weather_try_records_one_fetch u net q) as H;
        unfold exec in H;
        destruct (fetchWeatherAndSpeed_try u net q) as [[e | []] p']
      end; simpl in *; exact H.
Qed.

(** [permStatus.location === 'granted' || ... === 'prompt-with-rationale'] *)
Definition granted (loc : JS) : bool :=
  strict_eq_str loc "granted" || strict_eq_str loc "prompt-with-rationale".

(** The coordinates the chain hands to [fetchWeatherAndSpeed]: those of the
    acquired position when every step up to it went through, none
    otherwise. *)
Definition located (env : GeoEnv) : JS * JS :=
  match plugin env with
  | GlobalUnbound | GlobalFalsy => (None, None)
  | _ =>
    match permissions env with
    | inl _ => (None, None)
    | inr ps =>
      match prop "location" ps with
      | inl _ => (None, None)
      | inr loc =>
        if granted loc then
          match position env with
          | inl _ => (None, None)
          | inr pos =>
            match prop "coords" pos with
            | inl _ => (None, None)
            | inr coords =>
              match prop_js "latitude" coords, prop_js "longitude" coords with
              | inr la, inr lo => (la, lo)
              | _, _ => (None, None)
              end
            end
          end
        else (None, None)
      end
    end
  end.

(** Before the weather request: only permission and position requests have
    been awaited, all with the button disabled. *)
Definition only_location_requests (pre : list (Request * WeatherView)) : Prop :=
  Forall (fun a => is_fetch (fst a) = false /\
                   refreshWeatherBtn_disabled (snd a) = true) pre.

Arguments fetchWeatherAndSpeed : simpl never.

(** The chain is a prefix of location requests followed by exactly one call
    of [fetchWeatherAndSpeed]. *)
(* Closes a branch of the chain: the page before the weather call and the
   requests awaited so far are read off the goal. *)
Ltac fallback_none :=
  eexists; exists (@nil (Request * WeatherView));
  split; [reflexivity|split; [cbn; now rewrite app_nil_r|constructor]].

Ltac fallback_some :=
  eexists; eexists;
  split; [reflexivity
         |split; [cbn; rewrite <- ?app_assoc; reflexivity|repeat constructor]].

Lemma chain_decompose (env : GeoEnv) (p : WeatherPage) :
  exists p1 pre,
    requestLocationAndFetchWeather env p =
    (inr tt,
     exec (fetchWeatherAndSpeed (fst (located env)) (snd (located env)) (weather env)) p1)
    /\ w_awaits p1 = w_awaits p ++ pre
    /\ only_location_requests pre.
Proof.
  unfold requestLocationAndFetchWeather, located, granted, only_location_requests.
  rewrite !bind_modify. unfold try_catch, exec, spawn.
  destruct (plugin env).
  3,4: fallback_none.
  all: rewrite bind_ret; unfold bind at 1, await;
    destruct (permissions env) as [e | ps]; [fallback_some|].
  all: rewrite bind_modify; unfold bind at 1, lift;
    destruct (prop "location" ps) as [e | loc]; [fallback_some|].
  all: destruct (strict_eq_str loc "granted" || strict_eq_str loc "prompt-with-rationale");
    [|fallback_some].
  all: rewrite bind_modify; unfold bind at 1, await;
    destruct (position env) as [e | pos]; [fallback_some|].
  all: rewrite !bind_modify; unfold bind at 1, lift;
    destruct (prop "coords" pos) as [e | coords]; [fallback_some|].
  all: unfold bind at 1;
    destruct (prop_js "latitude" coords) as [e | la]; [fallback_some|].
  all: unfold bind at 1, bind at 1;
    destruct (prop_js "longitude" coords) as [e | lo]; fallback_some.
Qed.

(** A weather page with nothing on it. *)
Definition blank_weather : WeatherPage :=
  {| wview := {| weatherInfoDiv := []; locationStatusP := [];
                 refreshWeatherBtn_disabled := false |};
     w_console := []; w_awaits := [] |}.

(** C8.  Both operations complete whatever the environment answers, with
    their button enabled again; and the button was disabled at every moment
    the operation was waiting: for the history request, and for the
    permission, position and weather requests of the chain. *)
Theorem C8_trigger_disabled_then_reenabled :
  (forall (net : exn + Response) (p : HistoryPage),
      outcome (fetchCrashHistory net) p = inr tt /\
      loadHistoryBtn_disabled (view (exec (fetchCrashHistory net) p)) = false /\
      exists url seen,
        h_fetches (exec (fetchCrashHistory net) p) = h_fetches p ++ [(url, seen)] /\
        loadHistoryBtn_disabled seen = true)
  /\
  (forall (env : GeoEnv) (p : WeatherPage),
      outcome (requestLocationAndFetchWeather env) p = inr tt /\
      refreshWeatherBtn_disabled
        (wview (exec (requestLocationAndFetchWeather env) p)) = false /\
      exists during,
        w_awaits (exec (requestLocationAndFetchWeather env) p) =
          w_awaits p ++ during /\
        during <> [] /\
        Forall (fun a => refreshWeatherBtn_disabled (snd a) = true) during).
Proof.
  split.
  - intros net p. destruct (fetchCrashHistory_completes net p) as [Ho Hd].
    split; [exact Ho|]. split; [exact Hd|].
    eexists. exists history_pending. split; [apply fetchCrashHistory_pending|].
    reflexivity.
  - intros env p. destruct (chain_decompose env p) as (p1 & pre & Hrun & Haw & Hpre).
    destruct (fetchWeatherAndSpeed_spec (fst (located env)) (snd (located env))
                (weather env) p1) as (_ & Hd & Hf).
    unfold outcome, exec in *. rewrite Hrun. simpl.
    split; [reflexivity|]. split; [exact Hd|].
    exists (pre ++ [(ReqFetch (weather_url (fst (located env)) (snd (located env))),
                     weather_pending (fst (located env)) (snd (located env)))]).
    split; [now rewrite Hf, Haw, app_assoc|]. split.
    + intros H. apply app_eq_nil in H as [_ H]. discriminate.
    + apply Forall_app. split.
      * eapply Forall_impl; [|exact Hpre]. now intros a [_ Ha].
      * constructor; [reflexivity|constructor].
Qed.

(** The capability check found a plugin. *)
Definition plugin_available (env : GeoEnv) : Prop :=
  plugin env = ViaCapacitor \/ plugin env = ViaGlobal.

(** Permission was granted (or is [prompt-with-rationale]). *)
Definition permission_granted (env : GeoEnv) : Prop :=
  exists ps loc, permissions env = inr ps /\ prop "location" ps = inr loc /\
                 granted loc = true.

(** The position request answered with latitude [lat] and longitude [lon]. *)
Definition position_acquired (env : GeoEnv) (lat lon : JSValue) : Prop :=
  exists pos coords, position env = inr pos /\ prop "coords" pos = inr coords /\
                     prop_js "latitude" coords = inr (Some lat) /\
                     prop_js "longitude" coords = inr (Some lon).

(** Something went wrong before a position was there: no plugin, the
    permission request failed, permission was not granted, or the position
    request failed. *)
Definition fallback (env : GeoEnv) : Prop :=
  plugin env = GlobalFalsy \/ plugin env = GlobalUnbound
  \/ (exists e, permissions env = inl e)
  \/ (exists ps, permissions env = inr ps /\
                 forall loc, prop "location" ps = inr loc -> granted loc = false)
  \/ (exists e, position env = inl e).

Lemma located_acquired (env : GeoEnv) (lat lon : JSValue) :
  plugin_available env -> permission_granted env -> position_acquired env lat lon ->
  located env = (Some lat, Some lon).
Proof.
  intros Hp (ps & loc & Hps & Hloc & Hg) (pos & coords & Hpos & Hc & Hla & Hlo).
  unfold located. rewrite Hps, Hloc, Hg, Hpos, Hc, Hla, Hlo.
  now destruct Hp as [-> | ->].
Qed.

Lemma located_fallback (env : GeoEnv) : fallback env -> located env = (None, None).
Proof.
  unfold located.
  intros [-> | [-> | [[e He] | [(ps & Hps & Hden) | [e He]]]]]; try reflexivity.
  - rewrite He. now destruct (plugin env).
  - rewrite Hps. destruct (prop "location" ps) as [e | loc];
      [now destruct (plugin env)|].
    rewrite (Hden loc eq_refl). now destruct (plugin env).
  - rewrite He. destruct (plugin env); try reflexivity;
      destruct (permissions env) as [e' | ps]; try reflexivity;
      destruct (prop "location" ps) as [e' | loc]; try reflexivity;
      now destruct (granted loc).
Qed.



(* ================================================================== *)
(** * Further properties of the notification area *)

Lemma or_else_falsy (v : JS) (fallback : string) :
  truthy v = false -> or_else v fallback = Lit fallback.
Proof. destruct v as [w|]; simpl; [|reflexivity]. now intros ->. Qed.

Lemma stamp_falsy (v : JS) : truthy v = false -> stamp v = Lit "N/A".
Proof. destruct v as [w|]; simpl; [|reflexivity]. now intros ->. Qed.

(** X7.  A payload without a usable file name or time stamp (the key is
    missing, or its value is falsy, or the payload is no object at all) is
    still shown, with the scripts' fallback texts: "Unknown Video" and "N/A"
    on the dashboard; "N/A" twice in the web app, "Unknown" for an error
    item. *)
Theorem X7_missing_fields_fall_back :
  forall (crashData : JSValue) (isError : bool) (c : Chan),
    crashData <> JNull ->
    truthy (field "video_filename" crashData) = false ->
    truthy (field "detection_timestamp" crashData) = false ->
    notificationsDiv (exec (Dashboard.addNotification crashData isError) c) =
      show 20
        (Item "notification-item" isError
           [Lit "<strong>Crash Alert!</strong><br> Video: "; Lit "Unknown Video";
            Lit "<br> Time: "; Lit "N/A"])
        (notificationsDiv c)
    /\
    notificationsDiv (exec (Webapp.addUserNotification crashData isError) c) =
      show 10
        (if isError
         then Item "notification-item-user-error" true
                [Lit "<strong>Connection Issue:</strong> "; Lit "Unknown"]
         else Item "notification-item-user" false
                [Lit "<strong>Alert:</strong> A crash detected.<br>Time: ";
                 Lit "N/A"; Lit "<br>Ref: "; Lit "N/A"])
        (notificationsDiv c).
Proof.
  intros crashData isError c Hn Hv Ht. split.
  - pose proof (@dashboard_add (crashData, isError) c Hn) as H.
    cbn [fst snd] in H. rewrite H. cbn [notificationsDiv set_div].
    unfold dashboard_item. cbn [fst snd].
    now rewrite or_else_falsy, stamp_falsy.
  - pose proof (@webapp_add (crashData, isError) c Hn) as H.
    cbn [fst snd] in H. rewrite H. cbn [notificationsDiv set_div].
    unfold webapp_item. cbn [fst snd].
    rewrite !or_else_falsy, stamp_falsy by assumption.
    now destruct isError.
Qed.

Lemma X7_missing_fields_fall_back_witness :
  let c := served [] 0 in
  notificationsDiv (exec (Dashboard.addNotification (JObj [("video_filename", JStr EmptyString)]) false) c) =
    [Item "notification-item" false
       [Lit "<strong>Crash Alert!</strong><br> Video: "; Lit "Unknown Video";
        Lit "<br> Time: "; Lit "N/A"]]
  /\
  notificationsDiv (exec (Webapp.addUserNotification (JBool true) false) c) =
    [Item "notification-item-user" false
       [Lit "<strong>Alert:</strong> A crash detected.<br>Time: ";
        Lit "N/A"; Lit "<br>Ref: "; Lit "N/A"]].
Proof.
  intros c. split.
  - assert (Hn : JObj [("video_filename", JStr EmptyString)] <> JNull) by discriminate.
    exact (proj1 (X7_missing_fields_fall_back false c Hn eq_refl eq_refl)).
  - assert (Hn : JBool true <> JNull) by discriminate.
    exact (proj2 (X7_missing_fields_fall_back false c Hn eq_refl eq_refl)).
Defined.

Section FewPushes.

Variable max : nat.
Variable add : JSValue -> bool -> M Chan unit.
Variable item : JSValue * bool -> Node.

Hypothesis add_shows : forall r c,
  not_null r ->
  exec (add (fst r) (snd r)) c = set_div (show max (item r) (notificationsDiv c)) c.
Hypothesis item_is_item : forall r, is_item (item r) = true.

Lemma items_are_items (records : list (JSValue * bool)) :
  forallb is_item (map item records) = true.
Proof.
  induction records as [|r rs IH]; simpl; [reflexivity|].
  now rewrite item_is_item.
Qed.

Lemma children_length_rev_items (records : list (JSValue * bool)) :
  children_length (rev (map item records)) = List.length records.
Proof.
  rewrite <- map_rev, (@children_length_items item item_is_item).
  apply length_rev.
Qed.

(** Up to [max] pushes onto an area that still shows the "Waiting"
    placeholder: the placeholder goes and every record stays. *)
Lemma pushes_below_capacity (records : list (JSValue * bool)) (c : Chan) :
  Forall not_null records ->
  records <> [] ->
  List.length records <= max ->
  placeholder_waiting (notificationsDiv c) = true ->
  notificationsDiv (pushes add records c) = map item (rev records).
Proof.
  intros Hn Hne Hlen Hw.
  rewrite (@pushes_shown max add item add_shows) by assumption.
  destruct records as [|r rs]; [congruence|]. simpl map.
  change (shown max (item r :: map item rs) (notificationsDiv c))
    with (shown max (map item rs) (show max (item r) (notificationsDiv c))).
  rewrite show_keep, Hw, shown_settled.
  - rewrite keep_all.
    + simpl rev. now rewrite map_app, map_rev.
    + rewrite children_length_app, children_length_rev_items.
      pose proof (item_is_item r) as Hi. unfold children_length. simpl.
      destruct (item r); try discriminate. simpl in *. lia.
  - apply items_are_items.
  - now rewrite waiting_cons_item.
Qed.

(** Pushes onto an area that holds one status paragraph without "Waiting":
    the paragraph stays below the items and takes one of the [max] places,
    until the [max]-th item pushes it out. *)
Lemma pushes_over_status (records : list (JSValue * bool)) (c : Chan) (t : string) :
  Forall not_null records ->
  0 < max ->
  notificationsDiv c = [P t] ->
  includes "Waiting" t = false ->
  (List.length records < max ->
   notificationsDiv (pushes add records c) = map item (rev records) ++ [P t]) /\
  (List.length records = max ->
   notificationsDiv (pushes add records c) = map item (rev records)).
Proof.
  intros Hn Hmax Hdiv Ht.
  rewrite (@pushes_shown max add item add_shows) by assumption.
  rewrite Hdiv.
  assert (Hp : children_length [P t] = 1) by reflexivity.
  assert (Hk : keep max [P t] = [P t]).
  { apply keep_all. rewrite Hp. lia. }
  replace (shown max (map item records) [P t])
    with (shown max (map item records) (keep max [P t])) by now rewrite Hk.
  rewrite shown_settled.
  - pose proof (children_length_rev_items records) as Hc.
    rewrite <- map_rev in *. split; intros Hlen.
    + apply keep_all. rewrite children_length_app, Hc, Hp. lia.
    + rewrite keep_drop_last.
      * apply keep_all. rewrite Hc. lia.
      * rewrite children_length_app, Hc, Hp. lia.
  - apply items_are_items.
  - unfold placeholder_waiting. simpl. exact Ht.
Qed.

End FewPushes.







(* ================================================================== *)
(** * Further properties of the message handler *)

(** What a raw message carries for the notification function: the [data]
    of an envelope of type [new_crash], when it is truthy. *)
Definition decode (data : string) : option JSValue :=
  match Json.parse data with
  | None => None
  | Some message =>
    match prop "type" message with
    | inl _ => None
    | inr ty =>
      if strict_eq_str ty "new_crash" then
        match prop "data" message with
        | inr (Some crash) => if truthy_val crash then Some crash else None
        | _ => None
        end
      else None
    end
  end.

Lemma truthy_not_null (v : JSValue) : truthy_val v = true -> v <> JNull.
Proof. now destruct v. Qed.

Lemma addNotification_completes (v : JSValue) (e : bool) (c : Chan) :
  v <> JNull -> outcome (Dashboard.addNotification v e) c = inr tt.
Proof. intros H. destruct v; try congruence; reflexivity. Qed.

Lemma addUserNotification_completes (v : JSValue) (e : bool) (c : Chan) :
  v <> JNull -> outcome (Webapp.addUserNotification v e) c = inr tt.
Proof. intros H. destruct v; try congruence; reflexivity. Qed.

Ltac by_decode :=
  match goal with
  | |- context [Json.parse ?d] => destruct (Json.parse d) as [message|]
  end; cbn beta iota; [|split; reflexivity];
  match goal with
  | |- context [prop "type" ?m] => destruct (prop "type" m) as [e | ty]
  end; cbn beta iota; [split; reflexivity|];
  match goal with
  | |- context [strict_eq_str ?t "new_crash"] =>
    destruct (strict_eq_str t "new_crash")
  end; cbn beta iota; [|split; reflexivity];
  match goal with
  | |- context [prop "data" ?m] => destruct (prop "data" m) as [e | [crash|]]
  end; cbn beta iota; [split; reflexivity| |split; reflexivity];
  match goal with
  | |- context [truthy_val ?v] => destruct (truthy_val v) eqn:Et
  end; cbn beta iota; [|split; reflexivity].

(** The dashboard handler is [decode] followed by at most one push, and no
    exception leaves it. *)
Lemma dashboard_onmessage_decode (data : string) (c : Chan) :
  outcome (Dashboard.onmessage data) c = inr tt /\
  match decode data with
  | Some crash =>
    exec (Dashboard.onmessage data) c =
    exec (Dashboard.addNotification crash false)
         (console_put LOG "Message received from server:" [ArgStr data] c)
  | None => ui (exec (Dashboard.onmessage data) c) = ui c
  end.
Proof.
  unfold outcome, exec, Dashboard.onmessage, decode.
  rewrite bind_modify. unfold try_catch, bind, lift, ret. cbn beta iota.
  by_decode.
  pose proof (@addNotification_completes crash false
                (console_put LOG "Message received from server:" [ArgStr data] c)
                (@truthy_not_null crash Et)) as Ho.
  unfold outcome in Ho.
  destruct (Dashboard.addNotification crash false _) as [[e | []] c'];
    [discriminate|]. split; reflexivity.
Qed.

Lemma webapp_onmessage_decode (data : string) (c : Chan) :
  outcome (Webapp.onmessage data) c = inr tt /\
  match decode data with
  | Some crash =>
    exec (Webapp.onmessage data) c =
    exec (Webapp.addUserNotification crash false)
         (console_put LOG "Message received:" [ArgStr data] c)
  | None => ui (exec (Webapp.onmessage data) c) = ui c
  end.
Proof.
  unfold outcome, exec, Webapp.onmessage, decode.
  rewrite bind_modify. unfold try_catch, bind, lift, ret. cbn beta iota.
  by_decode.
  pose proof (@addUserNotification_completes crash false
                (console_put LOG "Message received:" [ArgStr data] c)
                (@truthy_not_null crash Et)) as Ho.
  unfold outcome in Ho.
  destruct (Webapp.addUserNotification crash false _) as [[e | []] c'];
    [discriminate|]. split; reflexivity.
Qed.

Lemma decode_truthy (data : string) (crash : JSValue) :
  decode data = Some crash -> truthy_val crash = true.
Proof.
  unfold decode. destruct (Json.parse data) as [message|]; [|discriminate].
  destruct (prop "type" message) as [e | ty]; [discriminate|].
  destruct (strict_eq_str ty "new_crash"); [|discriminate].
  destruct (prop "data" message) as [e | [d|]]; try discriminate.
  destruct (truthy_val d) eqn:Et; [|discriminate].
  intros H. injection H as <-. exact Et.
Qed.

(** X5.  An envelope of any type whose [data] is present but falsy ([null],
    [false], a zero, the empty string) is dropped like one without [data]:
    nothing on the page changes but the console. *)
Theorem X5_falsy_data_dropped :
  forall (data : string) (message crash : JSValue) (c : Chan),
    Json.parse data = Some message ->
    prop "data" message = inr (Some crash) ->
    truthy_val crash = false ->
    ui (exec (Dashboard.onmessage data) c) = ui c /\
    ui (exec (Webapp.onmessage data) c) = ui c.
Proof.
  intros data message crash c Hp Hd Ht.
  assert (Hdec : decode data = None).
  { unfold decode. rewrite Hp.
    destruct (prop "type" message) as [e | ty]; [reflexivity|].
    destruct (strict_eq_str ty "new_crash"); [|reflexivity].
    now rewrite Hd, Ht. }
  pose proof (dashboard_onmessage_decode data c) as [_ Hdash].
  pose proof (webapp_onmessage_decode data c) as [_ Hweb].
  rewrite Hdec in Hdash, Hweb. now split.
Qed.

Lemma X5_falsy_data_dropped_witness :
  let c := served [P "Connected. Waiting for new crash alerts..."] 0 in
  notificationsDiv
    (exec (Dashboard.onmessage (dq "{'type':'new_crash','data':0}")) c) =
    [P "Connected. Waiting for new crash alerts..."]
  /\
  notificationsDiv
    (exec (Webapp.onmessage (dq "{'type':'new_crash','data':null}")) c) =
    [P "Connected. Waiting for new crash alerts..."].
Proof.
  intros c. split.
  - assert (Hp : Json.parse (dq "{'type':'new_crash','data':0}") =
                 Some (JObj [("type", JStr "new_crash"); ("data", JNum "0")]))
      by (vm_compute; reflexivity).
    destruct (X5_falsy_data_dropped _ c Hp eq_refl eq_refl) as [H _].
    exact (f_equal (fun u => fst (fst (fst (fst u)))) H).
  - assert (Hp : Json.parse (dq "{'type':'new_crash','data':null}") =
                 Some (JObj [("type", JStr "new_crash"); ("data", JNull)]))
      by (vm_compute; reflexivity).
    destruct (X5_falsy_data_dropped _ c Hp eq_refl eq_refl) as [_ H].
    exact (f_equal (fun u => fst (fst (fst (fst u)))) H).
Defined.

Lemma dashboard_onmessage_area (data : string) (c : Chan) :
  notificationsDiv (exec (Dashboard.onmessage data) c) = notificationsDiv c \/
  exists crash,
    notificationsDiv (exec (Dashboard.onmessage data) c) =
    show 20 (dashboard_item (crash, false)) (notificationsDiv c).
Proof.
  destruct (dashboard_onmessage_decode data c) as [_ Hd].
  destruct (decode data) as [crash|] eqn:E.
  - right. exists crash. rewrite Hd.
    rewrite (@dashboard_add (crash, false)); [reflexivity|].
    apply truthy_not_null. now apply (decode_truthy data).
  - left. exact (f_equal (fun u => fst (fst (fst (fst u)))) Hd).
Qed.

Lemma webapp_onmessage_area (data : string) (c : Chan) :
  notificationsDiv (exec (Webapp.onmessage data) c) = notificationsDiv c \/
  exists crash,
    notificationsDiv (exec (Webapp.onmessage data) c) =
    show 10 (webapp_item (crash, false)) (notificationsDiv c).
Proof.
  destruct (webapp_onmessage_decode data c) as [_ Hd].
  destruct (decode data) as [crash|] eqn:E.
  - right. exists crash. rewrite Hd.
    rewrite (@webapp_add (crash, false)); [reflexivity|].
    apply truthy_not_null. now apply (decode_truthy data).
  - left. exact (f_equal (fun u => fst (fst (fst (fst u)))) Hd).
Qed.

(** X6.  Whatever text arrives, the message handler completes without an
    exception, leaves sockets, timers and clock alone (a message cannot
    cause a reconnect), and changes the notification area by at most one
    push. *)
Theorem X6_message_handler_total :
  forall (data : string) (c : Chan),
    (outcome (Dashboard.onmessage data) c = inr tt /\
     net (exec (Dashboard.onmessage data) c) = net c /\
     (notificationsDiv (exec (Dashboard.onmessage data) c) = notificationsDiv c \/
      exists crash,
        notificationsDiv (exec (Dashboard.onmessage data) c) =
        show 20 (dashboard_item (crash, false)) (notificationsDiv c)))
    /\
    (outcome (Webapp.onmessage data) c = inr tt /\
     net (exec (Webapp.onmessage data) c) = net c /\
     (notificationsDiv (exec (Webapp.onmessage data) c) = notificationsDiv c \/
      exists crash,
        notificationsDiv (exec (Webapp.onmessage data) c) =
        show 10 (webapp_item (crash, false)) (notificationsDiv c))).
Proof.
  intros data c. split.
  - split; [apply dashboard_onmessage_decode|].
    split; [apply (message_frame dashboard_disciplined)|].
    apply dashboard_onmessage_area.
  - split; [apply webapp_onmessage_decode|].
    split; [apply (message_frame webapp_disciplined)|].
    apply webapp_onmessage_area.
Qed.

Lemma children_length_show (max : nat) (item : Node) (div : list Node) :
  children_length (show max item div) <= max.
Proof. unfold show. apply evict_exit. Qed.

Lemma dashboard_step_capacity (ev : Event) (c c' : Chan) :
  fire dashboard ev c = Some c' ->
  children_length (notificationsDiv c) <= 20 ->
  children_length (notificationsDiv c') <= 20.
Proof.
  intros Hf Hc. destruct ev as [i | i data | i iso | i reason code | ms | k];
    simpl in Hf.
  - destruct (nth_error (sockets c) i) as [[]|]; try discriminate.
    injection Hf as <-. unfold exec, Dashboard.onopen.
    rewrite bind_modify. unfold bind, gets. cbn [notificationsDiv set_ready set_sockets console_put].
    destruct (placeholder_waiting (notificationsDiv c)); simpl.
    + unfold children_length. simpl. lia.
    + exact Hc.
  - destruct (nth_error (sockets c) i) as [[]|]; try discriminate.
    injection Hf as <-.
    destruct (dashboard_onmessage_area data c) as [H | [crash H]];
      rewrite H; [exact Hc|apply children_length_show].
  - assert (H : c' = exec (Dashboard.onerror iso) c).
    { destruct (nth_error (sockets c) i) as [[]|]; try discriminate;
        now injection Hf as <-. }
    subst c'. apply children_length_show.
  - assert (H : notificationsDiv c' =
                [P "WebSocket disconnected. Attempting to reconnect in 5 seconds..."]).
    { destruct (nth_error (sockets c) i) as [[]|]; try discriminate;
        now injection Hf as <-. }
    rewrite H. unfold children_length. simpl. lia.
  - injection Hf as <-. exact Hc.
  - destruct (nth_error (timers c) k); try discriminate.
    destruct (_ <=? _)%N; try discriminate. injection Hf as <-. exact Hc.
Qed.

Lemma webapp_step_capacity (ev : Event) (c c' : Chan) :
  fire webapp ev c = Some c' ->
  children_length (notificationsDiv c) <= 10 ->
  children_length (notificationsDiv c') <= 10.
Proof.
  intros Hf Hc. destruct ev as [i | i data | i iso | i reason code | ms | k];
    simpl in Hf.
  - destruct (nth_error (sockets c) i) as [[]|]; try discriminate.
    injection Hf as <-. unfold exec, Webapp.onopen.
    rewrite bind_modify. unfold bind, gets. cbn [notificationsDiv set_ready set_sockets console_put].
    destruct (placeholder_waiting (notificationsDiv c)); simpl.
    + unfold children_length. simpl. lia.
    + exact Hc.
  - destruct (nth_error (sockets c) i) as [[]|]; try discriminate.
    injection Hf as <-.
    destruct (webapp_onmessage_area data c) as [H | [crash H]];
      rewrite H; [exact Hc|apply children_length_show].
  - assert (H : c' = exec (Webapp.onerror iso) c).
    { destruct (nth_error (sockets c) i) as [[]|]; try discriminate;
        now injection Hf as <-. }
    subst c'. apply children_length_show.
  - assert (H : notificationsDiv c' =
                [P "WebSocket disconnected. Attempting to reconnect..."]).
    { destruct (nth_error (sockets c) i) as [[]|]; try discriminate;
        now injection Hf as <-. }
    rewrite H. unfold children_length. simpl. lia.
  - injection Hf as <-. exact Hc.
  - destruct (nth_error (timers c) k); try discriminate.
    destruct (_ <=? _)%N; try discriminate. injection Hf as <-. exact Hc.
Qed.

Lemma run_invariant (sc : Script) (Inv : Chan -> Prop) :
  (forall ev c c', fire sc ev c = Some c' -> Inv c -> Inv c') ->
  forall evs c c', run sc evs c = Some c' -> Inv c -> Inv c'.
Proof.
  intros Hstep evs. induction evs as [|ev evs IH]; intros c c' Hr Hi; simpl in Hr.
  - now injection Hr as <-.
  - destruct (fire sc ev c) as [c1|] eqn:E; [|discriminate].
    eapply IH; [eassumption|]. eapply Hstep; eassumption.
Qed.

(** X2.  The capacity is an invariant of the whole page life: if the served
    markup of the notification area has at most 20 (10) elements, then after
    any sequence of open, message, error, close and timer events it still
    has at most 20 (10). *)
Theorem X2_capacity_never_exceeded :
  forall (markup : list Node) (t0 : N) (evs : list Event) (c : Chan),
    (children_length markup <= 20 ->
     run dashboard evs (load dashboard markup t0) = Some c ->
     children_length (notificationsDiv c) <= 20)
    /\
    (children_length markup <= 10 ->
     run webapp evs (load webapp markup t0) = Some c ->
     children_length (notificationsDiv c) <= 10).
Proof.
  intros markup t0 evs c. split; intros Hm Hr.
  - apply (@run_invariant dashboard
             (fun st => children_length (notificationsDiv st) <= 20)
             dashboard_step_capacity evs _ _ Hr). exact Hm.
  - apply (@run_invariant webapp
             (fun st => children_length (notificationsDiv st) <= 10)
             webapp_step_capacity evs _ _ Hr). exact Hm.
Qed.

Lemma X2_capacity_never_exceeded_witness :
  let evs := [EvOpen 0; EvMessage 0 envelope; EvError 0 "T"; EvMessage 0 "oops"] in
  let start := load webapp [P "Waiting for alerts..."] 0 in
  let c := match run webapp evs start with Some c => c | None => start end in
  children_length (notificationsDiv c) <= 10.
Proof.
  intros evs start c.
  refine (proj2 (X2_capacity_never_exceeded [P "Waiting for alerts..."] 0 evs c) _ _).
  - apply Nat.leb_le. reflexivity.
  - vm_compute. reflexivity.
Defined.

(* ================================================================== *)
(** * Further properties of the connection life cycle *)

(** The shape of every reachable connection state: all sockets but the
    newest are CLOSED, [ws] holds the newest, and either the newest is live
    and no timer is pending, or it is CLOSED and exactly one timer is
    pending, due no later than 5000 ms from now. *)
Definition tidy (n : Net) : Prop :=
  let '(w, socks, tms, t) := n in
  exists k s,
    socks = repeat CLOSED k ++ [s] /\ w = Some k /\
    ((is_live s = true /\ tms = []) \/
     (s = CLOSED /\ exists due, tms = [due] /\ (due <= t + 5000)%N)).

Lemma live_in_closed_then (k i : nat) (s x : ReadyState) :
  nth_error (repeat CLOSED k ++ [s]) i = Some x ->
  is_live x = true ->
  i = k /\ s = x.
Proof.
  revert i. induction k as [|k IH]; intros i H Hx; simpl in H.
  - destruct i as [|i]; simpl in H.
    + injection H as ->. auto.
    + destruct i; discriminate.
  - destruct i as [|i]; simpl in H.
    + injection H as <-. discriminate.
    + destruct (IH i H Hx) as [-> ->]. auto.
Qed.

Lemma net_step_tidy (ev : Event) (n n' : Net) :
  tidy n -> net_step ev n = Some n' -> tidy n'.
Proof.
  destruct n as [[[w socks] tms] t].
  intros (k & s & -> & -> & Hs) H.
  destruct ev as [i | i data | i iso | i reason code | ms | j]; simpl in H.
  - destruct (nth_error _ i) as [[]|] eqn:E; try discriminate.
    injection H as <-.
    destruct (@live_in_closed_then k i _ _ E eq_refl) as [-> ->].
    rewrite set_nth_closed_then. exists k, OPEN. split; [reflexivity|].
    split; [reflexivity|]. left. split; [reflexivity|].
    destruct Hs as [[_ Ht] | [Hc _]]; [exact Ht|discriminate].
  - destruct (nth_error _ i) as [[]|]; try discriminate.
    injection H as <-. exists k, s. auto.
  - destruct (nth_error _ i) as [[]|]; try discriminate;
      injection H as <-; exists k, s; auto.
  - assert (Hx : exists x, nth_error (repeat CLOSED k ++ [s]) i = Some x /\
                           is_live x = true /\
                           n' = (Some k, set_nth i CLOSED (repeat CLOSED k ++ [s]),
                                 tms ++ [(t + 5000)%N], t)).
    { destruct (nth_error _ i) as [[]|]; try discriminate;
        injection H as <-; eexists; repeat split. }
    destruct Hx as (x & E & Hx & ->).
    destruct (@live_in_closed_then k i _ _ E Hx) as [-> ->].
    rewrite set_nth_closed_then. exists k, CLOSED. split; [reflexivity|].
    split; [reflexivity|]. right. split; [reflexivity|].
    destruct Hs as [[_ ->] | [Hc _]]; [|subst x; discriminate].
    exists (t + 5000)%N. split; [reflexivity|lia].
  - injection H as <-. exists k, s. split; [reflexivity|]. split; [reflexivity|].
    destruct Hs as [Hl | (Hc & due & Ht & Hd)]; [now left|].
    right. split; [exact Hc|]. exists due. split; [exact Ht|lia].
  - destruct (nth_error tms j) as [due|] eqn:E; [|discriminate].
    destruct (due <=? t)%N; [|discriminate]. injection H as <-.
    destruct Hs as [[_ ->] | (-> & due' & -> & _)].
    + destruct j; discriminate.
    + destruct j as [|j]; [|destruct j; discriminate].
      exists (S k), CONNECTING. split.
      * rewrite <- repeat_cons. reflexivity.
      * split; [|left; split; reflexivity].
        rewrite length_app, repeat_length. simpl. f_equal. lia.
Qed.

Lemma net_run_tidy (evs : list Event) (n n' : Net) :
  tidy n -> net_run evs n = Some n' -> tidy n'.
Proof.
  revert n. induction evs as [|ev evs IH]; intros n Ht H; simpl in H.
  - now injection H as <-.
  - destruct (net_step ev n) as [n1|] eqn:E; [|discriminate].
    eapply IH; [|eassumption]. eapply net_step_tidy; eassumption.
Qed.

Lemma reachable_tidy (sc : Script) (c : Chan) :
  disciplined sc -> reachable sc c -> tidy (net c).
Proof.
  intros Hsc (markup & t0 & evs & Hrun).
  pose proof (run_net Hsc evs (load sc markup t0)) as H.
  rewrite Hrun, load_net in H by assumption. simpl in H. symmetry in H.
  eapply net_run_tidy; [|exact H].
  exists 0, CONNECTING. split; [reflexivity|]. split; [reflexivity|].
  left. split; reflexivity.
Qed.

Lemma scripts_disciplined (sc : Script) :
  sc = dashboard \/ sc = webapp -> disciplined sc.
Proof.
  intros [-> | ->]; [apply dashboard_disciplined | apply webapp_disciplined].
Qed.

(** X16.  In every state the page can reach, the sockets created earlier
    are all CLOSED and the global [ws] holds the newest socket; at most one
    reconnect timer is pending, and only while the newest socket is
    CLOSED. *)
Theorem X16_only_newest_socket_live :
  forall (sc : Script) (c : Chan),
    sc = dashboard \/ sc = webapp ->
    reachable sc c ->
    exists k s,
      sockets c = repeat CLOSED k ++ [s] /\
      ws c = Some k /\
      List.length (timers c) <= 1 /\
      (timers c <> [] -> s = CLOSED).
Proof.
  intros sc c Hsc Hr.
  pose proof (reachable_tidy (scripts_disciplined Hsc) Hr) as Ht.
  unfold tidy, net in Ht. destruct Ht as (k & s & Hs & Hw & Hcase).
  exists k, s. split; [exact Hs|]. split; [exact Hw|].
  destruct Hcase as [[_ ->] | (-> & due & -> & _)]; simpl.
  - split; [lia|congruence].
  - split; [lia|reflexivity].
Qed.

Lemma X16_only_newest_socket_live_witness :
  let start := load webapp [P "Waiting for alerts..."] 0 in
  let c := match run webapp (cycles 2 ++ [EvOpen 2]) start with
           | Some c => c
           | None => start
           end in
  exists k s, sockets c = repeat CLOSED k ++ [s] /\ ws c = Some k.
Proof.
  intros start c.
  assert (Hr : reachable webapp c).
  { exists [P "Waiting for alerts..."], 0%N, (cycles 2 ++ [EvOpen 2]).
    vm_compute. reflexivity. }
  destruct (X16_only_newest_socket_live (or_intror eq_refl) Hr)
    as (k & s & Hs & Hw & _).
  exists k, s. split; assumption.
Defined.

(** X17.  The page never stays disconnected: in every reachable state
    without a live socket a reconnect timer is pending, it is due once
    5000 ms have passed, and when it runs there is a live connection
    attempt again. *)
Theorem X17_never_stuck_disconnected :
  forall (sc : Script) (c : Chan),
    sc = dashboard \/ sc = webapp ->
    reachable sc c ->
    live c = 0 ->
    exists c1 c2,
      fire sc (EvElapse 5000) c = Some c1 /\
      fire sc (EvTimeout 0) c1 = Some c2 /\
      live c2 = 1.
Proof.
  intros sc c Hsc Hr Hl.
  pose proof (scripts_disciplined Hsc) as Hd.
  pose proof (reachable_tidy Hd Hr) as Ht.
  unfold tidy, net in Ht. destruct Ht as (k & s & Hs & Hw & Hcase).
  assert (Hlive : live c = if is_live s then 1 else 0).
  { unfold live. rewrite Hs, filter_app, length_app. simpl.
    assert (Hz : filter is_live (repeat CLOSED k) = []).
    { clear. induction k; simpl; auto. }
    rewrite Hz. now destruct (is_live s). }
  destruct Hcase as [[Hs' _] | (-> & due & Htm & Hdue)].
  { rewrite Hlive, Hs' in Hl. discriminate. }
  pose proof (fire_net Hd (EvTimeout 0) (set_now (now c + 5000)%N c)) as Hf.
  unfold net in Hf. cbn [net_step ws sockets timers now set_now] in Hf.
  rewrite Htm in Hf. cbn [nth_error] in Hf.
  assert (Hle : (due <=? now c + 5000)%N = true) by (apply N.leb_le; lia).
  rewrite Hle in Hf.
  destruct (fire sc (EvTimeout 0) (set_now (now c + 5000)%N c)) as [c2|] eqn:E2;
    [|discriminate].
  exists (set_now (now c + 5000)%N c), c2.
  split; [reflexivity|]. split; [exact E2|].
  cbn [option_map] in Hf. injection Hf as _ Hsock _ _.
  unfold live. rewrite Hsock, Hs, !filter_app, !length_app.
  assert (Hz : filter is_live (repeat CLOSED k) = []).
  { clear. induction k; simpl; auto. }
  rewrite Hz. reflexivity.
Qed.

Lemma X17_never_stuck_disconnected_witness :
  let start := load dashboard [P "Waiting for alerts..."] 0 in
  let c := match run dashboard [EvOpen 0; EvClose 0 EmptyString 1006] start with
           | Some c => c
           | None => start
           end in
  exists c1 c2,
    fire dashboard (EvElapse 5000) c = Some c1 /\
    fire dashboard (EvTimeout 0) c1 = Some c2 /\
    live c2 = 1.
Proof.
  intros start c.
  assert (Hr : reachable dashboard c).
  { exists [P "Waiting for alerts..."], 0%N, [EvOpen 0; EvClose 0 EmptyString 1006].
    vm_compute. reflexivity. }
  assert (Hl : live c = 0) by (vm_compute; reflexivity).
  exact (X17_never_stuck_disconnected (or_introl eq_refl) Hr Hl).
Defined.

(* ================================================================== *)
(** * Further properties of the history fetch *)

(** The table row of one history entry. *)
Definition row_of (crash : JSValue) : list Cell :=
  [Shown (field "id" crash); ShownDate (field "detection_timestamp" crash);
   Shown (field "video_filename" crash); ShownDate (field "created_at" crash)].

(** The rows the [forEach] loop leaves in the table: one per entry up to
    the first [null] entry, for which a row with a single untouched cell is
    left behind. *)
Fixpoint rendered (rows : list JSValue) : list (list Cell) :=
  match rows with
  | [] => []
  | crash :: rest =>
    if is_record crash then row_of crash :: rendered rest else [[Blank]]
  end.

Lemma on_last_row_snoc (f : list Cell -> list Cell) (t : list (list Cell))
      (r : list Cell) (p : HistoryPage) :
  on_last_row f (set_tbody (t ++ [r]) p) = set_tbody (t ++ [f r]) p.
Proof.
  unfold on_last_row. cbn [view set_tbody on_view historyTbody].
  rewrite rev_unit, rev_involutive. reflexivity.
Qed.

Lemma insertCell_snoc (t : list (list Cell)) (r : list Cell) (p : HistoryPage) :
  insertCell (set_tbody (t ++ [r]) p) = set_tbody (t ++ [r ++ [Blank]]) p.
Proof. exact (@on_last_row_snoc (fun x => x ++ [Blank]) t r p). Qed.

Lemma set_cell_snoc (c : Cell) (t : list (list Cell)) (r : list Cell)
      (p : HistoryPage) :
  set_cell c (set_tbody (t ++ [r]) p) = set_tbody (t ++ [removelast r ++ [c]]) p.
Proof. exact (@on_last_row_snoc (fun x => removelast x ++ [c]) t r p). Qed.

Lemma bind_lift_inr {S A B} (a : A) (k : A -> M S B) (s : S) :
  bind (lift (inr a)) k s = k a s.
Proof. reflexivity. Qed.

Lemma add_row_record (crash : JSValue) (p : HistoryPage) :
  is_record crash = true ->
  add_row crash p =
  (inr tt, set_tbody (historyTbody (view p) ++ [row_of crash]) p).
Proof.
  intros Hc. unfold add_row.
  assert (Hp : forall k, prop k crash = inr (field k crash)).
  { intros k. unfold field. destruct crash; try discriminate; reflexivity. }
  rewrite !Hp. rewrite bind_modify. unfold insertRow.
  repeat first [ rewrite bind_modify | rewrite bind_lift_inr
               | rewrite insertCell_snoc | rewrite set_cell_snoc ].
  unfold modify. rewrite set_cell_snoc. reflexivity.
Qed.

Lemma add_row_null (p : HistoryPage) :
  add_row JNull p =
  (inl (Thrown (NullProperty "id")),
   set_tbody (historyTbody (view p) ++ [[Blank]]) p).
Proof.
  unfold add_row. rewrite bind_modify. unfold insertRow.
  rewrite bind_modify, insertCell_snoc. reflexivity.
Qed.

Lemma is_record_false (crash : JSValue) : is_record crash = false -> crash = JNull.
Proof. now destruct crash. Qed.

(** The loop appends [rendered rows] to the table, touches nothing else on
    screen, and throws exactly when it meets a [null] entry. *)
Lemma forEach_add_row_rendered (rows : list JSValue) (p : HistoryPage) :
  fst (forEach add_row rows p) =
    (if forallb is_record rows then inr tt else inl (Thrown (NullProperty "id"))) /\
  historyTbody (view (snd (forEach add_row rows p))) =
    historyTbody (view p) ++ rendered rows /\
  historyStatus (view (snd (forEach add_row rows p))) = historyStatus (view p) /\
  loadHistoryBtn_disabled (view (snd (forEach add_row rows p))) =
    loadHistoryBtn_disabled (view p).
Proof.
  revert p. induction rows as [|crash rows IH]; intros p.
  - simpl. rewrite app_nil_r. auto.
  - cbn [forEach forallb rendered]. unfold bind.
    destruct (is_record crash) eqn:Ec.
    + rewrite add_row_record by assumption. cbn [andb].
      destruct (IH (set_tbody (historyTbody (view p) ++ [row_of crash]) p))
        as (Ho & Ht & Hs & Hd).
      rewrite Ho, Ht, Hs, Hd. cbn [view set_tbody on_view historyTbody
                                   historyStatus loadHistoryBtn_disabled].
      rewrite <- app_assoc. auto.
    + apply is_record_false in Ec. subst crash. rewrite add_row_null.
      cbn [andb fst snd view set_tbody on_view historyTbody
           historyStatus loadHistoryBtn_disabled]. auto.
Qed.

Lemma view_ext (v : HistoryView) (t : list (list Cell)) (s : Text) (d : bool) :
  historyTbody v = t -> historyStatus v = s -> loadHistoryBtn_disabled v = d ->
  v = {| historyTbody := t; historyStatus := s; loadHistoryBtn_disabled := d |}.
Proof. destruct v. simpl. now intros -> -> ->. Qed.

(** What a failed fetch leaves on screen. *)
Definition error_view (rows : list (list Cell)) (e : exn) : HistoryView :=
  {| historyTbody := rows;
     historyStatus := Lit "Error loading history: " :: message_of e;
     loadHistoryBtn_disabled := false |}.

(** What the history part of the page shows once [fetchCrashHistory] has
    completed, as a function of the outcome of the request. *)
Definition final_view (net : exn + Response) : HistoryView :=
  match net with
  | inl e => error_view [] e
  | inr r =>
    if ok r then
      match response_json r with
      | inl e => error_view [] e
      | inr historyData =>
        match length_is_zero historyData with
        | inl e => error_view [] e
        | inr true =>
          {| historyTbody := []; historyStatus := [Lit "No crash history found."];
             loadHistoryBtn_disabled := false |}
        | inr false =>
          match historyData with
          | JArr rows =>
            if forallb is_record rows
            then {| historyTbody := rendered rows; historyStatus := [];
                    loadHistoryBtn_disabled := false |}
            else error_view (rendered rows) (Thrown (NullProperty "id"))
          | _ => error_view [] (Thrown (NotAFunction "forEach"))
          end
        end
      end
    else error_view [] (Error [Lit "HTTP error! status: "; Lit (dec (status r))])
  end.

Lemma fetchCrashHistory_final_view (net : exn + Response) (p : HistoryPage) :
  view (exec (fetchCrashHistory net) p) = final_view net.
Proof.
  unfold exec, fetchCrashHistory. rewrite !bind_modify.
  rewrite try_finally_state. unfold try_catch, fetchCrashHistory_try.
  unfold bind at 1, await_fetch.
  destruct net as [e | r]; [reflexivity|]. cbn [final_view].
  unfold bind at 1. destruct (ok r); cbn [negb]; [|reflexivity].
  unfold ret, bind at 1, lift.
  destruct (response_json r) as [e | historyData]; [reflexivity|].
  unfold bind at 1.
  destruct (length_is_zero historyData) as [e | [|]] eqn:El; [reflexivity|reflexivity|].
  rewrite bind_modify.
  destruct historyData; try reflexivity.
  match goal with
  | |- context [forEach add_row elems ?q] =>
    destruct (forEach_add_row_rendered elems q) as (Ho & Ht & Hs & Hd);
    destruct (forEach add_row elems q) as [res q']
  end.
  cbn [fst snd] in *. subst res. simpl in Ht, Hs, Hd.
  destruct (forallb is_record elems).
  - apply view_ext; simpl; assumption || reflexivity.
  - apply view_ext; simpl; assumption || reflexivity.
Qed.

Lemma rendered_records (rows : list JSValue) :
  forallb is_record rows = true -> rendered rows = map row_of rows.
Proof.
  induction rows as [|crash rows IH]; simpl; [reflexivity|].
  intros H. apply andb_true_iff in H as [-> Hr]. now rewrite IH.
Qed.

Lemma rendered_until_null (good rest : list JSValue) :
  forallb is_record good = true ->
  rendered (good ++ JNull :: rest) = map row_of good ++ [[Blank]] /\
  forallb is_record (good ++ JNull :: rest) = false.
Proof.
  induction good as [|crash good IH]; simpl; [auto|].
  intros H. apply andb_true_iff in H as [-> Hr].
  destruct (IH Hr) as [-> ->]. auto.
Qed.





(** X10.  Nothing is carried over between fetches: what the history part of
    the page shows after a fetch is determined by the outcome of that
    request alone, so a second fetch fully replaces the table, the status
    line and the button state left by the first. *)
Theorem X10_history_view_fully_replaced :
  forall (net net' : exn + Response) (p q : HistoryPage),
    view (exec (fetchCrashHistory net) p) = view (exec (fetchCrashHistory net) q) /\
    view (exec (fetchCrashHistory net) (exec (fetchCrashHistory net') p)) =
    view (exec (fetchCrashHistory net) p).
Proof.
  intros net net' p q. now rewrite !fetchCrashHistory_final_view.
Qed.

(* ================================================================== *)
(** * Further properties of the weather fetch *)

(** The message of the error thrown on a status outside 200-299: the status
    code, and, when the body decodes, its [detail] or else the whole body
    re-serialised. *)
Definition http_detail (r : Response) : Text :=
  [Lit "HTTP error! status: "; Lit (dec (status r))] ++
  match response_json r with
  | inl _ => []
  | inr errorJson =>
    match prop "detail" errorJson with
    | inl _ => []
    | inr d => [Lit " - "; if truthy d then interp d else Stringify errorJson]
    end
  end.

(** What a failed weather fetch leaves on screen. *)
Definition weather_error_view (e : exn) : WeatherView :=
  {| weatherInfoDiv :=
       [Lit (dq "<p style='color: red;'>Could not load weather data: ")] ++
       message_of e ++ [Lit "</p>"];
     locationStatusP := [Lit "Failed to get weather."];
     refreshWeatherBtn_disabled := false |}.

(** What a decoded weather report is shown as. *)
Definition weather_view (data : JSValue) : WeatherView :=
  {| weatherInfoDiv :=
       [Lit "<p><strong>Weather:</strong> ";
        or_else (field "weather_desc" data) "N/A";
        Lit "</p><p><strong>Visibility:</strong> "] ++
       (match field "visibility_km" data with
        | Some JNull => [Lit "N/A"]
        | _ => [interp (field "visibility_km" data); Lit " km"]
        end) ++
       [Lit "</p><p><strong>Raining:</strong> ";
        Lit (if truthy (field "is_raining" data) then "Yes" else "No");
        Lit "</p><p><strong>Max Safe Speed:</strong> ";
        interp (field "safe_speed_kmh" data);
        Lit " km/h</p>"];
     locationStatusP := [Lit "Weather based on: "; interp (field "location_used" data)];
     refreshWeatherBtn_disabled := false |}.

(** What the weather part of the page shows once [fetchWeatherAndSpeed] has
    completed, as a function of the outcome of the request. *)
Definition weather_final (net : exn + Response) : WeatherView :=
  match net with
  | inl e => weather_error_view e
  | inr r =>
    if ok r then
      match response_json r with
      | inl e => weather_error_view e
      | inr JNull => weather_error_view (Thrown (NullProperty "weather_desc"))
      | inr data => weather_view data
      end
    else weather_error_view (Error (http_detail r))
  end.

Lemma fetchWeatherAndSpeed_final (latitude longitude : JS) (net : exn + Response)
      (p : WeatherPage) :
  wview (exec (fetchWeatherAndSpeed latitude longitude net) p) = weather_final net.
Proof.
  unfold exec, fetchWeatherAndSpeed. rewrite !bind_modify.
  assert (H : forall url q,
             wview (snd (try_finally
                           (try_catch (fetchWeatherAndSpeed_try url net)
                              (fun error =>
                                 modify (w_log ERROR "Error fetching weather data:" [ArgExn error]) ;;
                                 modify (set_weatherInfo
                                           ([Lit (dq "<p style='color: red;'>Could not load weather data: ")] ++
                                            message_of error ++ [Lit "</p>"])) ;;
                                 modify (set_locationStatus [Lit "Failed to get weather."])))
                           (modify (set_refreshDisabled false)) q)) =
             weather_final net).
  { intros url q. rewrite try_finally_state.
    unfold try_catch, fetchWeatherAndSpeed_try. unfold bind at 1, await.
    destruct net as [e | r]; [reflexivity|]. cbn [weather_final].
    unfold bind at 1. destruct (ok r); cbn [negb].
    - unfold ret, bind at 1, lift.
      destruct (response_json r) as [e | data]; [reflexivity|].
      destruct data; reflexivity.
    - unfold http_detail, bind at 1, try_catch, bind at 1, lift.
      destruct (response_json r) as [e | errorJson]; [reflexivity|].
      unfold bind at 1.
      destruct (prop "detail" errorJson) as [e | d]; reflexivity. }
  destruct (negb (is_null (default_null latitude)) &&
            negb (is_null (default_null longitude))).
  - rewrite bind_ret. apply H.
  - rewrite bind_modify_ret. apply H.
Qed.





(** X13.  What the weather part of the page shows after a fetch depends on
    the outcome of the request alone, not on the coordinates or on what was
    shown before; in particular the notices "Requesting weather..." and
    "Using default location for weather." never outlast the request: the
    status line ends as "Failed to get weather." or "Weather based on: ...". *)
Theorem X13_weather_view_from_response_alone :
  forall (lat lon lat' lon' : JS) (net : exn + Response) (p q : WeatherPage),
    wview (exec (fetchWeatherAndSpeed lat lon net) p) =
    wview (exec (fetchWeatherAndSpeed lat' lon' net) q)
    /\
    (locationStatusP (wview (exec (fetchWeatherAndSpeed lat lon net) p)) =
       [Lit "Failed to get weather."]
     \/
     exists v,
       locationStatusP (wview (exec (fetchWeatherAndSpeed lat lon net) p)) =
       [Lit "Weather based on: "; v]).
Proof.
  intros lat lon lat' lon' net p q. rewrite !fetchWeatherAndSpeed_final.
  split; [reflexivity|]. unfold weather_final.
  destruct net as [e | r]; [now left|].
  destruct (ok r); [|now left].
  destruct (response_json r) as [e | data]; [now left|].
  destruct data; try (right; eexists; reflexivity). now left.
Qed.

(* ================================================================== *)
(** * Further properties of the location chain *)

(** The requests the chain makes before the weather request: permission is
    asked once a plugin is found, the position only once permission is
    granted. *)
Definition location_requests (env : GeoEnv) : list Request :=
  match plugin env with
  | GlobalUnbound | GlobalFalsy => []
  | _ =>
    ReqPermissions ::
    match permissions env with
    | inl _ => []
    | inr ps =>
      match prop "location" ps with
      | inl _ => []
      | inr loc => if granted loc then [ReqPosition false 10000%N] else []
      end
    end
  end.

Ltac branch_none :=
  eexists; exists (@nil (Request * WeatherView));
  split; [reflexivity|split; [cbn; now rewrite app_nil_r|reflexivity]].

Ltac branch_some :=
  eexists; eexists;
  split; [reflexivity
         |split; [cbn; rewrite <- ?app_assoc; reflexivity|reflexivity]].

Lemma chain_requests (env : GeoEnv) (p : WeatherPage) :
  exists p1 pre,
    requestLocationAndFetchWeather env p =
    (inr tt,
     exec (fetchWeatherAndSpeed (fst (located env)) (snd (located env)) (weather env)) p1)
    /\ w_awaits p1 = w_awaits p ++ pre
    /\ map fst pre = location_requests env.
Proof.
  unfold requestLocationAndFetchWeather, located, location_requests, granted.
  rewrite !bind_modify. unfold try_catch, exec, spawn.
  destruct (plugin env).
  3,4: branch_none.
  all: rewrite bind_ret; unfold bind at 1, await;
    destruct (permissions env) as [e | ps]; [branch_some|].
  all: rewrite bind_modify; unfold bind at 1, lift;
    destruct (prop "location" ps) as [e | loc]; [branch_some|].
  all: destruct (strict_eq_str loc "granted" || strict_eq_str loc "prompt-with-rationale");
    [|branch_some].
  all: rewrite bind_modify; unfold bind at 1, await;
    destruct (position env) as [e | pos]; [branch_some|].
  all: rewrite !bind_modify; unfold bind at 1, lift;
    destruct (prop "coords" pos) as [e | coords]; [branch_some|].
  all: unfold bind at 1;
    destruct (prop_js "latitude" coords) as [e | la]; [branch_some|].
  all: unfold bind at 1, bind at 1;
    destruct (prop_js "longitude" coords) as [e | lo]; branch_some.
Qed.

(** X14.  The chain asks for permission only when a plugin was found and
    for the position only after permission was granted, always with
    [enableHighAccuracy: false] and a timeout of 10000 ms; the weather
    request comes last.  Without a granted permission no position is
    requested. *)
Theorem X14_position_only_after_permission :
  forall (env : GeoEnv) (p : WeatherPage),
    exists url,
      map fst (w_awaits (exec (requestLocationAndFetchWeather env) p)) =
        map fst (w_awaits p) ++ location_requests env ++ [ReqFetch url]
      /\
      (forall hi t,
          In (ReqPosition hi t) (location_requests env) ->
          hi = false /\ t = 10000%N /\
          plugin_available env /\ permission_granted env)
      /\
      (In ReqPermissions (location_requests env) -> plugin_available env).
Proof.
  intros env p. destruct (chain_requests env p) as (p1 & pre & Hrun & Haw & Hpre).
  destruct (fetchWeatherAndSpeed_spec (fst (located env)) (snd (located env))
              (weather env) p1) as (_ & _ & Hf).
  exists (weather_url (fst (located env)) (snd (located env))).
  split; [|split].
  - unfold exec in *. rewrite Hrun. cbn [snd].
    rewrite Hf, Haw, !map_app, Hpre, <- app_assoc. reflexivity.
  - unfold location_requests, plugin_available, permission_granted.
    intros hi t Hin.
    destruct (plugin env); try contradiction;
      (destruct Hin as [Hin | Hin]; [discriminate|]);
      (destruct (permissions env) as [e | ps]; [contradiction|]);
      (destruct (prop "location" ps) as [e | loc] eqn:El; [contradiction|]);
      (destruct (granted loc) eqn:Eg; [|contradiction]);
      (destruct Hin as [Hin | []]); injection Hin as <- <-;
      (split; [reflexivity|]); (split; [reflexivity|]);
      (split; [auto|]); exists ps, loc; auto.
  - unfold location_requests, plugin_available.
    destruct (plugin env); simpl; auto; contradiction.
Qed.

Lemma X14_position_only_after_permission_witness :
  let env :=
    {| plugin := ViaCapacitor;
       permissions := inr (JObj [("location", JStr "granted")]);
       position := inl (Rejected "timeout");
       weather := inl (Rejected "offline") |} in
  plugin_available env /\ permission_granted env.
Proof.
  intros env.
  destruct (X14_position_only_after_permission env blank_weather)
    as (url & _ & Hpos & _).
  destruct (Hpos false 10000%N) as (_ & _ & Hp & Hg).
  - right. left. reflexivity.
  - split; assumption.
Defined.

Lemma located_position (env : GeoEnv) (pos : JSValue) (coords la lo : JS) :
  plugin_available env -> permission_granted env ->
  position env = inr pos -> prop "coords" pos = inr coords ->
  prop_js "latitude" coords = inr la -> prop_js "longitude" coords = inr lo ->
  located env = (la, lo).
Proof.
  intros Hp (ps & loc & Hps & Hloc & Hg) Hpos Hc Hla Hlo.
  unfold located. rewrite Hps, Hloc, Hg, Hpos, Hc, Hla, Hlo.
  now destruct Hp as [-> | ->].
Qed.

(** X15.  A position that lacks a coordinate is treated like no position:
    when the acquired position has a [null] or missing latitude or
    longitude, the weather endpoint is called without query parameters and
    the status line says that the default location is used. *)
Theorem X15_incomplete_position_uses_default :
  forall (env : GeoEnv) (p : WeatherPage) (pos : JSValue) (coords la lo : JS),
    plugin_available env -> permission_granted env ->
    position env = inr pos -> prop "coords" pos = inr coords ->
    prop_js "latitude" coords = inr la -> prop_js "longitude" coords = inr lo ->
    default_null la = JNull \/ default_null lo = JNull ->
    exists pre seen,
      w_awaits (exec (requestLocationAndFetchWeather env) p) =
        w_awaits p ++ pre ++
        [(ReqFetch [Lit Webapp.API_BASE_URL; Lit "/api/weather_conditions"], seen)]
      /\ locationStatusP seen = [Lit "Using default location for weather."].
Proof.
  intros env p pos coords la lo Hp Hg Hpos Hc Hla Hlo Hnull.
  destruct (chain_requests env p) as (p1 & pre & Hrun & Haw & _).
  destruct (fetchWeatherAndSpeed_spec (fst (located env)) (snd (located env))
              (weather env) p1) as (_ & _ & Hf).
  rewrite (located_position Hp Hg Hpos Hc Hla Hlo) in *. cbn [fst snd] in *.
  assert (Hb : negb (is_null (default_null la)) && negb (is_null (default_null lo))
               = false).
  { destruct Hnull as [-> | ->]; [reflexivity|]. apply andb_false_r. }
  exists pre, (weather_pending la lo).
  unfold exec in *. rewrite Hrun. cbn [snd]. rewrite Hf, Haw, <- app_assoc.
  unfold weather_url, weather_pending. rewrite Hb. split; reflexivity.
Qed.

Lemma X15_incomplete_position_uses_default_witness :
  let env :=
    {| plugin := ViaGlobal;
       permissions := inr (JObj [("location", JStr "prompt-with-rationale")]);
       position := inr (JObj [("coords", JObj [("latitude", JNum "37.0")])]);
       weather := inl (Rejected "offline") |} in
  exists pre seen,
    w_awaits (exec (requestLocationAndFetchWeather env) blank_weather) =
      w_awaits blank_weather ++ pre ++
      [(ReqFetch [Lit Webapp.API_BASE_URL; Lit "/api/weather_conditions"], seen)]
    /\ locationStatusP seen = [Lit "Using default location for weather."].
Proof.
  intros env.
  apply (@X15_incomplete_position_uses_default env blank_weather
           (JObj [("coords", JObj [("latitude", JNum "37.0")])])
           (Some (JObj [("latitude", JNum "37.0")]))
           (Some (JNum "37.0")) None).
  - right. reflexivity.
  - eexists. eexists. repeat split; reflexivity.
  - reflexivity.
  - reflexivity.
  - reflexivity.
  - reflexivity.
  - right. reflexivity.
Defined.
